(** * Backup Fire agent: the users backup flow and the agent start-up

    A shallow embedding of [users.ts] (the users backup middleware) and of
    [index.ts] (the construction of the HTTPS handler), with the Node.js
    library functions they call ([path.parse], [path.resolve], [url.format],
    [querystring.stringify], [String.prototype.split]) written out.

    Strings are byte strings: a JavaScript string is represented by its
    UTF-8 encoding.  Effects are threaded explicitly: the users flow runs in
    a state-and-rejection monad over the local file system and a trace of
    the calls made to the outside world. *)

From Stdlib Require Import Ascii String.
From stdpp Require Import base option list strings gmap.

#[local] Set Warnings "-register-all".

(** ** Characters and strings *)

Module Str.

Definition dquote : ascii := ascii_of_nat 34.
Definition slash : ascii := "/"%char.

(** [quoted s] is [s] between two double quotes. *)
Definition quoted (s : string) : string :=
  String dquote (s +:+ String dquote "").

Definition is_empty (s : string) : bool :=
  match s with
  | EmptyString => true
  | String _ _ => false
  end.

(** [s.charCodeAt(0) === c] *)
Definition starts_with (c : ascii) (s : string) : bool :=
  match s with
  | EmptyString => false
  | String a _ => Ascii.eqb a c
  end.

(** [s.indexOf(c) !== -1] *)
Fixpoint contains (c : ascii) (s : string) : bool :=
  match s with
  | EmptyString => false
  | String a s' => Ascii.eqb a c || contains c s'
  end.

(** [s.split(sep)] for a one-character separator: the segments between
    the occurrences of [sep]; the empty string gives one empty segment. *)
Fixpoint split (sep : ascii) (s : string) : list string :=
  match s with
  | EmptyString => [""]
  | String c s' =>
      if Ascii.eqb c sep then "" :: split sep s'
      else match split sep s' with
           | seg :: segs => String c seg :: segs
           | [] => [String c ""]
           end
  end.

(** [segs.join(sep)] *)
Fixpoint join (sep : string) (segs : list string) : string :=
  match segs with
  | [] => ""
  | [seg] => seg
  | seg :: segs' => seg +:+ sep +:+ join sep segs'
  end.

(** The [length] of a JavaScript string, in UTF-16 code units, counted on
    its UTF-8 encoding: a continuation byte counts for nothing, the lead
    byte of a four-byte sequence for a surrogate pair. *)
Definition utf16_units (c : ascii) : nat :=
  let n := nat_of_ascii c in
  if n <? 128 then 1
  else if n <? 192 then 0
  else if n <? 240 then 1
  else 2.

Fixpoint utf16_length (s : string) : nat :=
  match s with
  | EmptyString => 0
  | String c s' => utf16_units c + utf16_length s'
  end.

(** Every character of [s] satisfies [p]. *)
Fixpoint all_chars (p : ascii → bool) (s : string) : bool :=
  match s with
  | EmptyString => true
  | String c s' => p c && all_chars p s'
  end.

End Str.

(** ** JavaScript values *)

Module JS.

(** A number is kept symbolically, the code never computes with one: the
    length of an array or of a string, or a JSON number literal as it is
    written. *)
Inductive Num : Type :=
| NLength (n : nat)
| NLiteral (lit : string).

(** The values [JSON.parse] builds, and [undefined]. An object keeps its
    own properties in insertion order. *)
Inductive Value : Type :=
| Undefined
| Null
| Bool (b : bool)
| Number (n : Num)
| Str (s : string)
| Array (elems : list Value)
| Object (props : list (string * Value)).

(** Truthiness of a [string | undefined]. *)
Definition truthy (v : option string) : bool :=
  match v with
  | Some s => negb (Str.is_empty s)
  | None => false
  end.

(** [a || b] on [string | undefined]. *)
Definition or (a b : option string) : option string :=
  if truthy a then a else b.

(** [v === undefined] *)
Definition is_undefined (v : Value) : bool :=
  match v with
  | Undefined => true
  | _ => false
  end.

(** The own property [key] of an object, [undefined] when it has none. *)
Fixpoint own_property (props : list (string * Value)) (key : string) : Value :=
  match props with
  | [] => Undefined
  | (k, v) :: props' => if String.eqb k key then v else own_property props' key
  end.

(** [obj[key] = v] while an object literal is read: a repeated key keeps
    its place and takes the later value. *)
Fixpoint set_property (props : list (string * Value)) (key : string) (v : Value)
  : list (string * Value) :=
  match props with
  | [] => [(key, v)]
  | (k, w) :: props' =>
      if String.eqb k key then (k, v) :: props'
      else (k, w) :: set_property props' key v
  end.

End JS.

(** ** Node.js [path] (POSIX) *)

Module Path.

(** [parse(path).base]: the trailing slashes are dropped and what follows
    the last remaining slash is kept; that is the last non-empty segment
    of the path, or the empty string when there is none. *)
Definition base (path : string) : string :=
  List.last (List.filter (fun seg => negb (Str.is_empty seg)) (Str.split Str.slash path)) "".

(** One segment of [normalizeString], pushed on the segments kept so far
    (the last one first): empty segments and [.] are skipped, [..] drops
    the segment before it, and is kept only where [allowAboveRoot] and
    nothing is left to drop. *)
Definition normalize_step (allowAboveRoot : bool) (kept : list string) (seg : string)
  : list string :=
  if Str.is_empty seg || String.eqb seg "." then kept
  else if String.eqb seg ".." then
    match kept with
    | top :: kept' =>
        if String.eqb top ".." then
          if allowAboveRoot then ".." :: kept else kept
        else kept'
    | [] => if allowAboveRoot then [".."] else []
    end
  else seg :: kept.

Definition normalizeString (path : string) (allowAboveRoot : bool) : string :=
  Str.join "/"
    (List.rev (List.fold_left (normalize_step allowAboveRoot)
                 (Str.split Str.slash path) [])).

(** The loop of [resolve], from the last argument to the first and then
    the working directory, until an absolute path is reached. *)
Fixpoint resolve_loop (args : list string) (resolvedPath : string) : string * bool :=
  match args with
  | [] => (resolvedPath, false)
  | path :: args' =>
      if Str.is_empty path then resolve_loop args' resolvedPath
      else
        let resolvedPath' := path +:+ "/" +:+ resolvedPath in
        if Str.starts_with Str.slash path then (resolvedPath', true)
        else resolve_loop args' resolvedPath'
  end.

(** [resolve(...args)] in the working directory [cwd]. *)
Definition resolve (cwd : string) (args : list string) : string :=
  let '(resolvedPath, resolvedAbsolute) := resolve_loop (List.rev args ++ [cwd]) "" in
  let normalized := normalizeString resolvedPath (negb resolvedAbsolute) in
  if resolvedAbsolute then "/" +:+ normalized
  else if Str.is_empty normalized then "." else normalized.

(** A base name that names a file: not empty, not [.] and not [..]. *)
Definition plain (name : string) : Prop :=
  name ≠ "" ∧ name ≠ "." ∧ name ≠ "..".

End Path.

(** ** The users backup: [users.ts] *)

Module Users.

(** What a promise is rejected with. *)
Inductive Error : Type :=
| PlatformError (reason : string)  (* firebase-tools or the storage client *)
| ENOENT (path : string)           (* [fs]: no such file *)
| EISDIR (path : string)           (* [fs]: the path is a directory *)
| SyntaxError                      (* [JSON.parse] *)
| TypeError.                       (* a property of [undefined] or [null] *)

Inductive Outcome (A : Type) : Type :=
| Resolved (a : A)
| Rejected (e : Error).
Arguments Resolved {A} a.
Arguments Rejected {A} e.

(** The two object literals [backupUsers] returns:
    [{state: 'completed', data: {usersCount, size}}] and
    [{state: 'failed', data: {reason}}]. *)
Inductive UsersStatusResponse : Type :=
| Completed (usersCount : JS.Value) (size : string)
| Failed (reason : string).

Definition state (r : UsersStatusResponse) : string :=
  match r with
  | Completed _ _ => "completed"
  | Failed _ => "failed"
  end.

Record UsersBackupOptions : Type := {
  bucketsAllowlist : option (list string);
  projectId : string
}.

Record UsersBackupRequestOptions : Type := {
  storageId : string;
  path : string
}.

(** The calls that leave the process or touch the local file system, in
    the order they are made. *)
Inductive Event : Type :=
| AuthExport (file project : string)
| ReadFile (file : string)
| Upload (bucket file destination : string)
| Unlink (file : string)
| Respond (r : UsersStatusResponse).

(** The world a request runs in: the regular files of the local file
    system (path to content) and the calls made so far. *)
Record World : Type := {
  files : gmap string string;
  trace : list Event
}.

(** The collaborators outside this repository. [auth_export] is
    [tools.auth.export]: it settles and leaves the file system as it likes.
    [bucket_upload] is [bucket.upload] on the content of the local file,
    resolved to [file.metadata.size]. [JSON_parse] is [JSON.parse], [None]
    where it throws. [tmpdir] and [cwd] are [os.tmpdir()] and
    [process.cwd()]. [is_directory] tells the directories of the local
    file system, of which a backup creates and removes none: a path holds
    a regular file (it is in [files]), or else a directory, or nothing. *)
Record Platform : Type := {
  tmpdir : string;
  cwd : string;
  is_directory : string → bool;
  auth_export : string → string → gmap string string → Outcome () * gmap string string;
  bucket_upload : string → string → string → Outcome string;
  JSON_parse : string → option JS.Value
}.

(** *** Promises: state and rejection *)

Definition M (A : Type) : Type := World → Outcome A * World.

Definition ret {A} (a : A) : M A := λ w, (Resolved a, w).

(** [await m] and go on with [k]; a rejection skips [k]. *)
Definition bind {A B} (m : M A) (k : A → M B) : M B :=
  λ w, match m w with
       | (Resolved a, w') => k a w'
       | (Rejected e, w') => (Rejected e, w')
       end.

(** [m.catch(h)] *)
Definition catch {A} (m : M A) (h : Error → M A) : M A :=
  λ w, match m w with
       | (Resolved a, w') => (Resolved a, w')
       | (Rejected e, w') => h e w'
       end.

Definition lift {A} (o : Outcome A) : M A := λ w, (o, w).

Definition emit (e : Event) : M () :=
  λ w, (Resolved (), {| files := files w; trace := trace w ++ [e] |}).

Notation "'let*' x ':=' m 'in' k" := (bind m (λ x, k))
  (at level 10, x name, m at level 100, k at level 200).
Notation "m ';;' k" := (bind m (λ _, k))
  (at level 100, k at level 200, right associativity).

(** *** The calls *)

(** [tools.auth.export(file, {project})] *)
Definition export (P : Platform) (file project : string) : M () :=
  emit (AuthExport file project);;
  λ w, let '(o, fs) := auth_export P file project (files w) in
       (o, {| files := fs; trace := trace w |}).

(** What [fs] answers where there is no regular file: [EISDIR] for a
    directory, [ENOENT] where there is nothing. *)
Definition no_file (P : Platform) (file : string) : Error :=
  if is_directory P file then EISDIR file else ENOENT file.

(** [readFile(file, 'utf8')] *)
Definition readFile (P : Platform) (file : string) : M string :=
  emit (ReadFile file);;
  λ w, match files w !! file with
       | Some content => (Resolved content, w)
       | None => (Rejected (no_file P file), w)
       end.

(** [unlink(file)] *)
Definition unlink (P : Platform) (file : string) : M () :=
  emit (Unlink file);;
  λ w, match files w !! file with
       | Some _ => (Resolved (), {| files := delete file (files w); trace := trace w |})
       | None => (Rejected (no_file P file), w)
       end.

(** [bucket.upload(file, {destination}).then(([file]) => file.metadata.size)] *)
Definition upload (P : Platform) (bucket file destination : string) : M string :=
  emit (Upload bucket file destination);;
  λ w, match files w !! file with
       | Some content => (bucket_upload P bucket content destination, w)
       | None => (Rejected (no_file P file), w)
       end.

(** [JSON.parse] as a step of a promise chain. *)
Definition parse (P : Platform) (content : string) : Outcome JS.Value :=
  match JSON_parse P content with
  | Some v => Resolved v
  | None => Rejected SyntaxError
  end.

(** The parameter pattern [{ users }]: the property [users] of the
    argument. Only an object read by [JSON.parse] can have one. *)
Definition get_users (v : JS.Value) : Outcome JS.Value :=
  match v with
  | JS.Undefined | JS.Null => Rejected TypeError
  | JS.Object props => Resolved (JS.own_property props "users")
  | JS.Bool _ | JS.Number _ | JS.Str _ | JS.Array _ => Resolved JS.Undefined
  end.

(** [users.length] *)
Definition get_length (users : JS.Value) : Outcome JS.Value :=
  match users with
  | JS.Undefined | JS.Null => Rejected TypeError
  | JS.Array elems => Resolved (JS.Number (JS.NLength (length elems)))
  | JS.Str s => Resolved (JS.Number (JS.NLength (Str.utf16_length s)))
  | JS.Object props => Resolved (JS.own_property props "length")
  | JS.Bool _ | JS.Number _ => Resolved JS.Undefined
  end.

(** *** The source functions *)

(** Generates temporary path on the FS from passed path in a bucket. *)
Definition tmpPath (P : Platform) (path : string) : string :=
  let fileName := Path.base path in
  Path.resolve (cwd P) [tmpdir P; fileName].

(** Calculate the number of users:
    [readFile(path, 'utf8').then(JSON.parse)
       .then(({ users }) => users.length).catch((_err) => undefined)] *)
Definition countUsers (P : Platform) (file : string) : M JS.Value :=
  catch
    (let* content := readFile P file in
     let* parsed := lift (parse P content) in
     let* users := lift (get_users parsed) in
     lift (get_length users))
    (λ _err, ret JS.Undefined).

Definition backupUsers (P : Platform) (projectId : string)
    (options : UsersBackupRequestOptions) : M UsersStatusResponse :=
  (* Create bucket *)
  let bucket := storageId options in
  (* Create temporary file path *)
  let file := tmpPath P (path options) in
  (* Export users to a temporary file *)
  export P file projectId;;
  (* Calculate the number of users *)
  let* usersCount := countUsers P file in
  (* Parsing has failed, the exported file is unreadable *)
  if JS.is_undefined usersCount then
    (* Remove the temporary file *)
    unlink P file;;
    ret (Failed "Failed to parse the backup file")
  else
    (* Upload the users backup to the storage *)
    let* size := upload P bucket file (path options) in
    (* Remove the temporary file *)
    unlink P file;;
    ret (Completed usersCount size).

(** Modelled from the spec: [operationResponse] of [_lib/operation], which
    is not among the sources; it sends the status as the response, an
    object [{state, data}]. *)
Definition operationResponse (r : UsersStatusResponse) : M () :=
  emit (Respond r).

(** The handler [backupUsersMiddleware] hands to [asyncMiddleware]; the
    request body is taken as [UsersBackupRequestOptions] as it comes. A
    rejection is what [asyncMiddleware] receives. *)
Definition backupUsersMiddleware (opts : UsersBackupOptions) (P : Platform)
    (body : UsersBackupRequestOptions) : M () :=
  let '{| bucketsAllowlist := _; projectId := projectId |} := opts in
  (* TODO: Validate options *)
  let options := body in
  let* state := backupUsers P projectId options in
  operationResponse state.

(** *** The artifact, as the count reads it *)

(** The [users] of a parsed artifact: the own property of an object,
    [undefined] for every other value. *)
Definition users_of (v : JS.Value) : JS.Value :=
  match v with
  | JS.Object props => JS.own_property props "users"
  | _ => JS.Undefined
  end.

(** The parsed artifact holds an array of users. *)
Definition has_users_array (v : JS.Value) : Prop :=
  ∃ elems, users_of v = JS.Array elems.

(** A [users] value with a defined [length]: an array, a string, or an
    object with a [length] property that is not [undefined]. *)
Definition countable (users : JS.Value) : bool :=
  match users with
  | JS.Array _ | JS.Str _ => true
  | JS.Object props => negb (JS.is_undefined (JS.own_property props "length"))
  | JS.Undefined | JS.Null | JS.Bool _ | JS.Number _ => false
  end.

(** What [countUsers] resolves to when the file holds [content], or is
    missing. *)
Definition usersCountOf (P : Platform) (content : option string) : JS.Value :=
  match content with
  | None => JS.Undefined
  | Some c =>
      match parse P c with
      | Rejected _ => JS.Undefined
      | Resolved v =>
          match get_users v with
          | Rejected _ => JS.Undefined
          | Resolved u =>
              match get_length u with
              | Rejected _ => JS.Undefined
              | Resolved n => n
              end
          end
      end
  end.

(** *** Reading a run *)

Definition initial (fs : gmap string string) : World :=
  {| files := fs; trace := [] |}.

Definition is_unlink (file : string) (e : Event) : bool :=
  match e with
  | Unlink f => String.eqb f file
  | _ => false
  end.

Definition is_respond (e : Event) : bool :=
  match e with
  | Respond _ => true
  | _ => false
  end.

(** How many times [unlink(file)] is called in a trace. *)
Definition unlinks (file : string) (t : list Event) : nat :=
  length (List.filter (is_unlink file) t).

End Users.

(** ** Node.js [querystring] and [url] *)

Module Querystring.

(** One hexadecimal digit, upper case. *)
Definition hex_digit (n : nat) : ascii :=
  if n <? 10 then ascii_of_nat (48 + n) else ascii_of_nat (55 + n).

(** [hexTable[c]]: a percent sign and the two digits of the byte. *)
Definition hexTable (c : ascii) : string :=
  let n := nat_of_ascii c in
  String "%" (String (hex_digit (n / 16)) (String (hex_digit (n mod 16)) "")).

(** The [noEscape] table: letters, digits and [! ' ( ) * - . _ ~]. *)
Definition noEscape (c : ascii) : bool :=
  let n := nat_of_ascii c in
  ((48 <=? n) && (n <=? 57)) || ((65 <=? n) && (n <=? 90))
  || ((97 <=? n) && (n <=? 122))
  || bool_decide (n ∈ [33; 39; 40; 41; 42; 45; 46; 95; 126]).

(** [qsEscape]: every other byte of the UTF-8 encoding is percent-encoded. *)
Fixpoint qsEscape (s : string) : string :=
  match s with
  | EmptyString => ""
  | String c s' =>
      if noEscape c then String c (qsEscape s')
      else hexTable c +:+ qsEscape s'
  end.

(** [stringify(obj)] for an object of string properties, in the order
    of its keys. *)
Definition stringify (obj : list (string * string)) : string :=
  Str.join "&" (List.map (λ '(k, v), qsEscape k +:+ "=" +:+ qsEscape v) obj).

(** The characters [qsEscape] writes: the unescaped ones and the percent
    sign. *)
Definition written (c : ascii) : bool := noEscape c || Ascii.eqb c "%".

End Querystring.

Module Url.

(** The properties of the object handed to [format] that the agent sets;
    [auth], [host], [port], [search], [hash] and [slashes] are absent. *)
Record UrlObject : Type := {
  hostname : option string;
  protocol : option string;
  pathname : option string;
  query : option (list (string * string))
}.

Definition slashedProtocol : list string :=
  ["http"; "http:"; "https"; "https:"; "ftp"; "ftp:"; "gopher"; "gopher:";
   "file"; "file:"; "ws"; "ws:"; "wss"; "wss:"].

Fixpoint ends_with (c : ascii) (s : string) : bool :=
  match s with
  | EmptyString => false
  | String a EmptyString => Ascii.eqb a c
  | String _ s' => ends_with c s'
  end.

(** [s.replace(/c/g, by)] for one character [c]. *)
Fixpoint replace_all (c : ascii) (by_ : string) (s : string) : string :=
  match s with
  | EmptyString => ""
  | String a s' =>
      if Ascii.eqb a c then by_ +:+ replace_all c by_ s'
      else String a (replace_all c by_ s')
  end.

Definition or_empty (v : option string) : string :=
  match v with
  | Some s => s
  | None => ""
  end.

(** [format(urlObject)], the legacy formatter. *)
Definition format (u : UrlObject) : string :=
  let protocol := or_empty (protocol u) in
  let pathname := or_empty (pathname u) in
  let host :=
    match hostname u with
    | Some h =>
        if Str.is_empty h then ""
        else if Str.contains ":" h then "[" +:+ h +:+ "]" else h
    | None => ""
    end in
  let query :=
    match query u with
    | Some q => Querystring.stringify q
    | None => ""
    end in
  let search := if Str.is_empty query then "" else "?" +:+ query in
  let protocol :=
    if negb (Str.is_empty protocol) && negb (ends_with ":" protocol)
    then protocol +:+ ":" else protocol in
  let pathname := replace_all "?" "%3F" (replace_all "#" "%23" pathname) in
  let '(host, pathname) :=
    if bool_decide (protocol ∈ slashedProtocol) then
      if negb (Str.is_empty host) then
        ("//" +:+ host,
         if negb (Str.is_empty pathname) && negb (Str.starts_with "/" pathname)
         then "/" +:+ pathname else pathname)
      else if bool_decide (protocol = "file:") then ("//", pathname)
      else (host, pathname)
    else (host, pathname) in
  let search := replace_all "#" "%23" search in
  protocol +:+ host +:+ pathname +:+ search.

End Url.

(** ** The agent start-up: [index.ts] *)

Module Index.

Definition defaultControllerDomain : string := "backupfire.dev".

Definition defaultRegion : string := "us-central1".

(** The [backupfire] key of the Functions environment configuration. *)
Module Env.
Record BackupFireEnvConfig : Type := {
  domain : option string;
  token : string;
  password : string;
  allowlist : option string;
  debug : option string
}.
End Env.

(** The options [backupFire] derives from the configuration. *)
Record BackupFireOptions : Type := {
  controllerDomain : option string;
  controllerToken : string;
  adminPassword : string;
  bucketsAllowlist : option (list string);
  debug : bool
}.

(** The object [getRuntimeEnv] builds; [isCompleteRuntimeEnv] narrows it
    to [RuntimeEnvironment] without changing it. *)
Record RuntimeEnvironment : Type := {
  region : option string;
  projectId : option string;
  functionName : option string
}.

(** The variables of [process.env] the agent reads. *)
Record ProcessEnv : Type := {
  GCP_PROJECT : option string;
  GCLOUD_PROJECT : option string;
  FUNCTION_NAME : option string;
  FUNCTION_TARGET : option string
}.

Inductive Method : Type := GET | POST | PUT.

(** The middlewares of the sibling modules, by name and options. *)
Inductive Middleware : Type :=
| backupFirestoreMiddleware (bucketsAllowlist : option (list string))
| checkFirestoreBackupStatusMiddleware
| backupUsersMiddleware (options : Users.UsersBackupOptions)
| storageListMiddleware (bucketsAllowlist : option (list string))
| createStorageMiddleware (bucketsAllowlist : option (list string))
| updateStorageMiddleware (bucketsAllowlist : option (list string)).

(** What is mounted on the Express app, in order. *)
Inductive Layer : Type :=
| use_jwt (secret : string)
| use_bodyParser_json
| use_cors
| route (method : Method) (path : string) (m : Middleware).

(** The listener handed to [https.onRequest]. *)
Inductive Listener : Type :=
| EndResponse               (* [(_req, resp) => resp.end()] *)
| App (layers : list Layer).

Inductive HttpsFunction : Type :=
| onRequest (region : string) (listener : Listener).

(** What a JavaScript function throws. *)
Inductive Exception : Type :=
| Error (message : string).

(** How a call of [backupFire] ends: it returns the HTTPS function, or an
    exception leaves it. *)
Inductive Started : Type :=
| Returned (f : HttpsFunction)
| Threw (e : Exception).

Coercion Returned : HttpsFunction >-> Started.

(** What [prettyJSON] is applied to. *)
Inductive LogArg : Type :=
| Text (s : string)
| PrettyEnv (runtimeEnv : RuntimeEnvironment)
| PrettyOptions (options : BackupFireOptions).

Inductive Effect : Type :=
| console_warn (args : list LogArg)
| console_log (args : list LogArg)
| fetch (url : string).

(** A template literal prints [undefined] for a missing value. *)
Definition interpolate (v : option string) : string :=
  match v with
  | Some s => s
  | None => "undefined"
  end.

Definition getRuntimeEnv (env : ProcessEnv) : RuntimeEnvironment :=
  {| region := Some defaultRegion;
     projectId := JS.or (GCP_PROJECT env) (GCLOUD_PROJECT env);
     functionName := JS.or (FUNCTION_NAME env) (FUNCTION_TARGET env) |}.

Definition isCompleteRuntimeEnv (runtimeEnv : RuntimeEnvironment) : bool :=
  JS.truthy (functionName runtimeEnv) && JS.truthy (projectId runtimeEnv)
  && JS.truthy (region runtimeEnv).

Definition dummyHandler : HttpsFunction := onRequest defaultRegion EndResponse.

Definition agentURL (runtimeEnv : RuntimeEnvironment) : string :=
  "https://" +:+ interpolate (region runtimeEnv) +:+ "-"
  +:+ interpolate (projectId runtimeEnv) +:+ ".cloudfunctions.net/"
  +:+ interpolate (functionName runtimeEnv).

(** The URL [sendInitializationPing] fetches. [querystring.stringify]
    writes a value that is not a string as the empty string; on the
    complete runtime environment the ping is sent for, [projectId] is a
    string. *)
Definition pingURL (options : BackupFireOptions) (runtimeEnv : RuntimeEnvironment)
  : string :=
  Url.format
    {| Url.hostname := JS.or (controllerDomain options) (Some defaultControllerDomain);
       Url.protocol := Some "https";
       Url.pathname := Some "/ping";
       Url.query := Some [("token", controllerToken options);
                          ("projectId", Url.or_empty (projectId runtimeEnv));
                          ("agentURL", agentURL runtimeEnv)] |}.

Definition sendInitializationPing (options : BackupFireOptions)
    (runtimeEnv : RuntimeEnvironment) : list Effect :=
  [fetch (pingURL options runtimeEnv)].

(** [jwt({ secret })] of [express-jwt]: the middleware factory starts
    with [if (!options || !options.secret) throw new Error('secret should
    be set')], and the empty string is falsy. *)
Definition jwt (secret : string) : Exception + Layer :=
  if Str.is_empty secret then inl (Error "secret should be set")
  else inr (use_jwt secret).

(** [createApp] takes a runtime environment narrowed to
    [RuntimeEnvironment]: its [projectId] is a string. The call of [jwt]
    comes first; when it throws, nothing is mounted and the exception
    leaves [createApp]. *)
Definition createApp (runtimeEnv : RuntimeEnvironment) (options : BackupFireOptions)
  : Exception + list Layer :=
  let globalOptions := bucketsAllowlist options in
  match jwt (controllerToken options) with
  | inl e => inl e
  | inr protect =>
      inr
        [ protect;
          use_bodyParser_json;
          use_cors;
          route POST "/firestore" (backupFirestoreMiddleware globalOptions);
          route GET "/firestore/status" checkFirestoreBackupStatusMiddleware;
          route POST "/users"
            (backupUsersMiddleware
               {| Users.projectId := Url.or_empty (projectId runtimeEnv);
                  Users.bucketsAllowlist := globalOptions |});
          route GET "/storage" (storageListMiddleware globalOptions);
          route POST "/storage" (createStorageMiddleware globalOptions);
          route PUT "/storage/:storageId" (updateStorageMiddleware globalOptions) ]
  end.

(** [(envConfig.allowlist && envConfig.allowlist.split(',')) || undefined]:
    a missing or empty string is falsy and leaves [undefined]; an array is
    always truthy. *)
Definition deriveAllowlist (allowlist : option string) : option (list string) :=
  if JS.truthy allowlist then
    match allowlist with
    | Some s => Some (Str.split "," s)
    | None => None
    end
  else None.

Definition deriveOptions (envConfig : Env.BackupFireEnvConfig) : BackupFireOptions :=
  {| controllerDomain := Env.domain envConfig;
     controllerToken := Env.token envConfig;
     adminPassword := Env.password envConfig;
     bucketsAllowlist := deriveAllowlist (Env.allowlist envConfig);
     debug := bool_decide (Env.debug envConfig = Some "true") |}.

(** [backupFire()]: [config] is [functions.config().backupfire], [env]
    is [process.env]. It gives the HTTPS function, or the exception that
    left it, and what it printed and fetched on the way: the ping is sent
    before [createApp] is called. *)
Definition backupFire (config : option Env.BackupFireEnvConfig) (env : ProcessEnv)
  : Started * list Effect :=
  match config with
  | None =>
      (* If options aren't set, use dummy handler instead *)
      (Returned dummyHandler,
       [console_warn [Text ("Warning: " +:+ Str.quoted "backupfire" +:+
          " key isn't found in the Functions environment configuration. Running a dummy HTTP handler instead of the Backup Fire agent...")]])
  | Some envConfig =>
      let options := deriveOptions envConfig in
      (* Get runtime environment (Firebase project ID, region, etc) *)
      let runtimeEnv := getRuntimeEnv env in
      (* If the function name isn't backupfire, use dummy handler *)
      if negb (bool_decide (functionName runtimeEnv = Some "backupfire")) then
        (Returned dummyHandler,
         if debug options then
           [console_log [Text ("The function name isn't " +:+ Str.quoted "backupfire"
              +:+ " (" +:+ interpolate (functionName runtimeEnv)
              +:+ "). Running a dummy HTTP handler instead of the Backup Fire agent...")]]
         else [])
      (* If some of the variables are missing, use dummy handler *)
      else if negb (isCompleteRuntimeEnv runtimeEnv) then
        (Returned dummyHandler,
         [console_warn [Text "Warning: runtime environment is incomplete:";
                        PrettyEnv runtimeEnv];
          console_warn [Text "Running a dummy HTTP handler instead of the Backup Fire agent..."]])
      else
        let effects :=
          (if debug options then
             [console_log [Text "Initializing Backup Fire agent with options:";
                           PrettyOptions options];
              console_log [Text "Runtime environment:"; PrettyEnv runtimeEnv]]
           else [])
          (* Send the initialization ping to the controller *)
          ++ sendInitializationPing options runtimeEnv in
        match createApp runtimeEnv options with
        | inr app => (Returned (onRequest defaultRegion (App app)), effects)
        | inl e => (Threw e, effects)
        end
  end.

(** *** The runtime identity and the controller *)

(** A component of the runtime identity that could not be determined:
    missing, or the empty string. *)
Definition undetermined (v : option string) : Prop := v = None ∨ v = Some "".

(** The configured controller domain, [backupfire.dev] when there is
    none. *)
Definition controllerDomainOf (envConfig : Env.BackupFireEnvConfig) : string :=
  match Env.domain envConfig with
  | Some d => if Str.is_empty d then defaultControllerDomain else d
  | None => defaultControllerDomain
  end.

(** A host in a URL: a name with a colon (an IPv6 address) goes between
    brackets. *)
Definition url_host (h : string) : string :=
  if Str.contains ":" h then "[" +:+ h +:+ "]" else h.

(** *** Serving a request *)

Record Request : Type := {
  method : string;
  url : string
}.

(** What the listener of the HTTPS function does with a request: the
    dummy one ends the response, the agent hands the request to the
    Express app. A start-up that threw exported no function: there is
    nothing to serve the request. *)
Inductive Served : Type :=
| Ended
| Dispatched (layers : list Layer) (req : Request)
| NoFunction.

Definition serve (s : Started) (req : Request) : Served :=
  match s with
  | Returned (onRequest _ EndResponse) => Ended
  | Returned (onRequest _ (App layers)) => Dispatched layers req
  | Threw _ => NoFunction
  end.

(** The URLs fetched, in order. *)
Definition fetched (effects : list Effect) : list string :=
  omap (λ e, match e with fetch url => Some url | _ => None end) effects.

(** *** Reading a start-up *)

(** The start-up returned a function that serves the agent's Express
    app. *)
Definition is_agent (s : Started) : bool :=
  match s with
  | Returned (onRequest _ (App _)) => true
  | _ => false
  end.

(** The layers of the app a start-up serves; none without an app. *)
Definition app_layers (s : Started) : list Layer :=
  match s with
  | Returned (onRequest _ (App layers)) => layers
  | _ => []
  end.

(** The three checks before the agent is initialized all pass: the
    configuration is there, the function is named [backupfire] and the
    runtime environment is complete. *)
Definition passes_checks (config : option Env.BackupFireEnvConfig) (env : ProcessEnv)
  : bool :=
  match config with
  | Some _ =>
      bool_decide (functionName (getRuntimeEnv env) = Some "backupfire")
      && isCompleteRuntimeEnv (getRuntimeEnv env)
  | None => false
  end.

(** The options a start-up printed through [prettyJSON], in order. *)
Definition printed_options (effects : list Effect) : list BackupFireOptions :=
  let of_args (args : list LogArg) :=
    omap (λ a, match a with PrettyOptions o => Some o | _ => None end) args in
  List.flat_map
    (λ e, match e with
          | console_warn args | console_log args => of_args args
          | fetch _ => []
          end) effects.

Definition is_route (l : Layer) : bool :=
  match l with
  | route _ _ _ => true
  | _ => false
  end.

(** The allowlist a middleware is created with; the status check takes
    none. *)
Definition allowlist_given (m : Middleware) : option (option (list string)) :=
  match m with
  | backupFirestoreMiddleware a | storageListMiddleware a
  | createStorageMiddleware a | updateStorageMiddleware a => Some a
  | backupUsersMiddleware o => Some (Users.bucketsAllowlist o)
  | checkFirestoreBackupStatusMiddleware => None
  end.

(** The middlewares mounted on routes, in order. *)
Definition mounted (layers : list Layer) : list Middleware :=
  omap (λ l, match l with route _ _ m => Some m | _ => None end) layers.

End Index.

(** ** A reference [JSON.parse]

    The users flow is stated over any [JSON.parse]; this reader of JSON
    texts serves the worked examples. A [\u] escape is written out as the
    UTF-8 bytes of its code unit. *)

Module Json.

Definition is_ws (c : ascii) : bool :=
  bool_decide (nat_of_ascii c ∈ [32; 9; 10; 13]).

Definition is_digit (c : ascii) : bool :=
  let n := nat_of_ascii c in (48 <=? n) && (n <=? 57).

Fixpoint skip_ws (s : string) : string :=
  match s with
  | String c s' => if is_ws c then skip_ws s' else s
  | EmptyString => ""
  end.

(** The longest prefix of characters satisfying [p], and the rest. *)
Fixpoint span (p : ascii → bool) (s : string) : string * string :=
  match s with
  | String c s' =>
      if p c then let '(pre, rest) := span p s' in (String c pre, rest)
      else ("", s)
  | EmptyString => ("", "")
  end.

Fixpoint strip_prefix (pre s : string) : option string :=
  match pre, s with
  | EmptyString, _ => Some s
  | String a pre', String b s' => if Ascii.eqb a b then strip_prefix pre' s' else None
  | String _ _, EmptyString => None
  end.

(** A number literal: [-? (0 | [1-9][0-9]* ) (. [0-9]+)? ([eE] [+-]? [0-9]+)?]. *)
Definition number (s : string) : option (string * string) :=
  let '(sign, s) :=
    match s with
    | String "-" r => ("-", r)
    | _ => ("", s)
    end in
  let int :=
    match s with
    | String "0" r => Some ("0", r)
    | String c r =>
        if is_digit c then let '(ds, r') := span is_digit r in Some (String c ds, r')
        else None
    | EmptyString => None
    end in
  match int with
  | None => None
  | Some (int, s) =>
      let frac :=
        match s with
        | String "." r =>
            let '(ds, r') := span is_digit r in
            if Str.is_empty ds then None else Some ("." +:+ ds, r')
        | _ => Some ("", s)
        end in
      match frac with
      | None => None
      | Some (frac, s) =>
          let exp :=
            match s with
            | String c r =>
                if bool_decide (c = "e"%char ∨ c = "E"%char) then
                  let '(sg, r) :=
                    match r with
                    | String "+" r' => ("+", r')
                    | String "-" r' => ("-", r')
                    | _ => ("", r)
                    end in
                  let '(ds, r') := span is_digit r in
                  if Str.is_empty ds then None
                  else Some (String c (sg +:+ ds), r')
                else Some ("", s)
            | EmptyString => Some ("", s)
            end in
          match exp with
          | None => None
          | Some (exp, s) => Some (sign +:+ int +:+ frac +:+ exp, s)
          end
      end
  end.

Definition hex_value (c : ascii) : option nat :=
  let n := nat_of_ascii c in
  if (48 <=? n) && (n <=? 57) then Some (n - 48)
  else if (65 <=? n) && (n <=? 70) then Some (n - 55)
  else if (97 <=? n) && (n <=? 102) then Some (n - 87)
  else None.

(** The UTF-8 bytes of one UTF-16 code unit. *)
Definition utf8 (cu : nat) : string :=
  if cu <? 128 then String (ascii_of_nat cu) ""
  else if cu <? 2048 then
    String (ascii_of_nat (192 + cu / 64)) (String (ascii_of_nat (128 + cu mod 64)) "")
  else
    String (ascii_of_nat (224 + cu / 4096))
      (String (ascii_of_nat (128 + (cu / 64) mod 64))
         (String (ascii_of_nat (128 + cu mod 64)) "")).

(** The characters of a string literal after its opening quote, up to the
    closing one. *)
Fixpoint chars (s : string) : option (string * string) :=
  match s with
  | EmptyString => None
  | String c r =>
      if Ascii.eqb c Str.dquote then Some ("", r)
      else if Ascii.eqb c "\" then
        match r with
        | String "u" (String h1 (String h2 (String h3 (String h4 r')))) =>
            match hex_value h1, hex_value h2, hex_value h3, hex_value h4 with
            | Some a, Some b, Some c, Some d =>
                match chars r' with
                | Some (str, rest) =>
                    Some (utf8 (((a * 16 + b) * 16 + c) * 16 + d) +:+ str, rest)
                | None => None
                end
            | _, _, _, _ => None
            end
        | String e r' =>
            let decoded :=
              if Ascii.eqb e Str.dquote then Some Str.dquote
              else if Ascii.eqb e "\" then Some "\"%char
              else if Ascii.eqb e "/" then Some "/"%char
              else if Ascii.eqb e "b" then Some (ascii_of_nat 8)
              else if Ascii.eqb e "f" then Some (ascii_of_nat 12)
              else if Ascii.eqb e "n" then Some (ascii_of_nat 10)
              else if Ascii.eqb e "r" then Some (ascii_of_nat 13)
              else if Ascii.eqb e "t" then Some (ascii_of_nat 9)
              else None in
            match decoded, chars r' with
            | Some d, Some (str, rest) => Some (String d str, rest)
            | _, _ => None
            end
        | EmptyString => None
        end
      else if nat_of_ascii c <? 32 then None
      else match chars r with
           | Some (str, rest) => Some (String c str, rest)
           | None => None
           end
  end.

(** A value, the elements of an array after its first bracket, and the
    members of an object after its first brace. *)
Fixpoint value (fuel : nat) (s : string) : option (JS.Value * string) :=
  match fuel with
  | 0 => None
  | S fuel =>
      match skip_ws s with
      | String "[" r =>
          match skip_ws r with
          | String "]" r' => Some (JS.Array [], r')
          | _ => elements fuel r []
          end
      | String "{" r =>
          match skip_ws r with
          | String "}" r' => Some (JS.Object [], r')
          | _ => members fuel r []
          end
      | String c r as s' =>
          if Ascii.eqb c Str.dquote then
            match chars r with
            | Some (str, rest) => Some (JS.Str str, rest)
            | None => None
            end
          else
            match strip_prefix "null" s', strip_prefix "true" s', strip_prefix "false" s' with
            | Some rest, _, _ => Some (JS.Null, rest)
            | _, Some rest, _ => Some (JS.Bool true, rest)
            | _, _, Some rest => Some (JS.Bool false, rest)
            | None, None, None =>
                match number s' with
                | Some (lit, rest) => Some (JS.Number (JS.NLiteral lit), rest)
                | None => None
                end
            end
      | EmptyString => None
      end
  end
with elements (fuel : nat) (s : string) (acc : list JS.Value)
  : option (JS.Value * string) :=
  match fuel with
  | 0 => None
  | S fuel =>
      match value fuel s with
      | Some (v, rest) =>
          match skip_ws rest with
          | String "," r => elements fuel r (acc ++ [v])
          | String "]" r => Some (JS.Array (acc ++ [v]), r)
          | _ => None
          end
      | None => None
      end
  end
with members (fuel : nat) (s : string) (acc : list (string * JS.Value))
  : option (JS.Value * string) :=
  match fuel with
  | 0 => None
  | S fuel =>
      match skip_ws s with
      | String q r =>
          if Ascii.eqb q Str.dquote then
            match chars r with
            | Some (key, rest) =>
                match skip_ws rest with
                | String ":" r' =>
                    match value fuel r' with
                    | Some (v, rest') =>
                        match skip_ws rest' with
                        | String "," r'' => members fuel r'' (JS.set_property acc key v)
                        | String "}" r'' => Some (JS.Object (JS.set_property acc key v), r'')
                        | _ => None
                        end
                    | None => None
                    end
                | _ => None
                end
            | None => None
            end
          else None
      | EmptyString => None
      end
  end.

(** [JSON.parse(text)], [None] for a [SyntaxError]. *)
Definition parse (text : string) : option JS.Value :=
  match value (2 * String.length text + 2) text with
  | Some (v, rest) => if Str.is_empty (skip_ws rest) then Some v else None
  | None => None
  end.

End Json.

(** ** Reading a URL back

    What the receiver of a URL reads in it: the components of the generic
    syntax [scheme://authority path ?query #fragment] (RFC 3986, section 3)
    and the pairs of a form-encoded query. This is the controller's side of
    the ping, written without any function of the agent. *)

Module Reader.

Record Parts : Type := {
  scheme : string;
  authority : string;
  path : string;
  query : option string
}.

Definition one_of (chars : list ascii) (c : ascii) : bool := bool_decide (c ∈ chars).

Definition none_of (chars : list ascii) (c : ascii) : bool := negb (one_of chars c).

(** The scheme runs up to the first colon, the authority follows [//] and
    runs up to the first slash, question mark or hash, the path up to the
    first question mark or hash, the query from a question mark up to the
    first hash. A text without [scheme://] is not read. *)
Definition read (u : string) : option Parts :=
  let '(scheme, rest) := Json.span (none_of [":"; "/"; "?"; "#"]%char) u in
  match Json.strip_prefix "://" rest with
  | Some rest =>
      let '(authority, rest) := Json.span (none_of ["/"; "?"; "#"]%char) rest in
      let '(path, rest) := Json.span (none_of ["?"; "#"]%char) rest in
      Some {| scheme := scheme;
              authority := authority;
              path := path;
              query := match rest with
                       | String c q =>
                           if Ascii.eqb c "?"
                           then Some (Json.span (none_of ["#"]%char) q).1
                           else None
                       | EmptyString => None
                       end |}
  | None => None
  end.

(** The characters of a host name: letters, digits, hyphen and dot. *)
Definition host_char (c : ascii) : bool :=
  let n := nat_of_ascii c in
  ((48 <=? n) && (n <=? 57)) || ((65 <=? n) && (n <=? 90))
  || ((97 <=? n) && (n <=? 122)) || (n =? 45) || (n =? 46).

Definition is_host_name (d : string) : bool :=
  negb (Str.is_empty d) && Str.all_chars host_char d.

(** Percent-decoding: a percent sign and two hexadecimal digits stand for
    one byte; any other character stands for itself. *)
Fixpoint unescape (s : string) : string :=
  match s with
  | EmptyString => ""
  | String c s' =>
      match s' with
      | String a (String b rest) =>
          match (if Ascii.eqb c "%" then Json.hex_value a else None),
                Json.hex_value b with
          | Some x, Some y => String (ascii_of_nat (16 * x + y)) (unescape rest)
          | _, _ => String c (unescape s')
          end
      | _ => String c (unescape s')
      end
  end.

(** A plus sign in a form-encoded query stands for a space. *)
Definition decode (s : string) : string := unescape (Url.replace_all "+" " " s).

Definition pair_of (s : string) : string * string :=
  let '(key, rest) := Json.span (none_of ["="]%char) s in
  (decode key,
   decode match rest with
          | String _ v => v
          | EmptyString => ""
          end).

(** The pairs of a query, in order: the non-empty segments between
    ampersands, each cut at its first equals sign and decoded. *)
Definition parse (q : string) : list (string * string) :=
  List.map pair_of (List.filter (λ s, negb (Str.is_empty s)) (Str.split "&" q)).

End Reader.

(** ** Worked platforms *)

Module Demo.
Import Users.

(** An export that writes [content] to the file it is given. *)
Definition writes (content : string)
  : string → string → gmap string string → Outcome () * gmap string string :=
  λ file _ fs, (Resolved (), <[file := content]> fs).

(** An export that fails and writes nothing. *)
Definition export_fails (reason : string)
  : string → string → gmap string string → Outcome () * gmap string string :=
  λ _ _ fs, (Rejected (PlatformError reason), fs).

Definition uploads (size : string) : string → string → string → Outcome string :=
  λ _ _ _, Resolved size.

Definition upload_fails (reason : string) : string → string → string → Outcome string :=
  λ _ _ _, Rejected (PlatformError reason).

Definition platform
    (exporter : string → string → gmap string string → Outcome () * gmap string string)
    (uploader : string → string → string → Outcome string) : Platform :=
  {| tmpdir := "/tmp";
     cwd := "/srv";
     is_directory := λ file, bool_decide (file ∈ ["/"; "/tmp"; "/srv"]);
     auth_export := exporter;
     bucket_upload := uploader;
     JSON_parse := Json.parse |}.

(** The JSON text [{"users":[{},...,{}]}] with [n] records. *)
Definition artifact (n : nat) : string :=
  "{" +:+ Str.quoted "users" +:+ ":[" +:+ Str.join "," (replicate n "{}") +:+ "]}".

(** The JSON text [{"users":"abc"}]. *)
Definition artifact_string : string :=
  "{" +:+ Str.quoted "users" +:+ ":" +:+ Str.quoted "abc" +:+ "}".

Definition request (bucket : string) : UsersBackupRequestOptions :=
  {| storageId := bucket; path := "users/2024.json" |}.

(** One request for [users/2024.json] in project [proj], on an empty
    temporary directory. *)
Definition run
    (exporter : string → string → gmap string string → Outcome () * gmap string string)
    (uploader : string → string → string → Outcome string) (bucket : string)
  : Outcome UsersStatusResponse * World :=
  backupUsers (platform exporter uploader) "proj" (request bucket) (initial ∅).

(** The same request through the middleware, under an allowlist. *)
Definition serve_users (allowlist : option (list string))
    (exporter : string → string → gmap string string → Outcome () * gmap string string)
    (uploader : string → string → string → Outcome string) (bucket : string)
  : Outcome () * World :=
  backupUsersMiddleware {| bucketsAllowlist := allowlist; projectId := "proj" |}
    (platform exporter uploader) (request bucket) (initial ∅).

(** A configuration whose controller is at [domain]. *)
Definition envConfigAt (domain : string) : Index.Env.BackupFireEnvConfig :=
  {| Index.Env.domain := Some domain;
     Index.Env.token := "secret token";
     Index.Env.password := "admin";
     Index.Env.allowlist := None;
     Index.Env.debug := None |}.

(** A configuration with the given token and [debug]. *)
Definition envConfigOf (token : string) (debug : option string)
  : Index.Env.BackupFireEnvConfig :=
  {| Index.Env.domain := None;
     Index.Env.token := token;
     Index.Env.password := "admin";
     Index.Env.allowlist := None;
     Index.Env.debug := debug |}.

Definition envConfig (allowlist : option string) : Index.Env.BackupFireEnvConfig :=
  {| Index.Env.domain := None;
     Index.Env.token := "secret token";
     Index.Env.password := "admin";
     Index.Env.allowlist := allowlist;
     Index.Env.debug := None |}.

(** The process environment of the Node.js 10 runtime: [GCLOUD_PROJECT]
    and [FUNCTION_TARGET]. *)
Definition processEnv (project target : option string) : Index.ProcessEnv :=
  {| Index.GCP_PROJECT := None;
     Index.GCLOUD_PROJECT := project;
     Index.FUNCTION_NAME := None;
     Index.FUNCTION_TARGET := target |}.

End Demo.

(** * Properties *)

(** ** Strings *)

Section StrFacts.
Variable sep : ascii.

Lemma split_nonempty (s : string) : Str.split sep s ≠ [].
Proof.
  destruct s as [|c s]; simpl; [done|].
  destruct (Ascii.eqb c sep); [done|].
  by destruct (Str.split sep s).
Qed.

Lemma join_cons (sp a b : string) (l : list string) :
  Str.join sp (a :: b :: l) = a +:+ sp +:+ Str.join sp (b :: l).
Proof. reflexivity. Qed.

Lemma join_split (s : string) : Str.join (String sep "") (Str.split sep s) = s.
Proof.
  induction s as [|c s IH]; [done|].
  simpl Str.split.
  destruct (Ascii.eqb_spec c sep) as [->|Hne].
  - pose proof (split_nonempty s) as Hs.
    destruct (Str.split sep s) as [|seg segs]; [done|].
    change (Str.join (String sep "") ("" :: seg :: segs))
      with (String sep (Str.join (String sep "") (seg :: segs))).
    by rewrite IH.
  - pose proof (split_nonempty s) as Hs.
    destruct (Str.split sep s) as [|seg segs]; [done|].
    destruct segs as [|seg' segs].
    + simpl in *. by rewrite IH.
    + rewrite join_cons in IH |- *. rewrite <- IH. reflexivity.
Qed.

Lemma split_no_sep (s : string) :
  Forall (λ seg, Str.contains sep seg = false) (Str.split sep s).
Proof.
  induction s as [|c s IH]; simpl.
  - by constructor.
  - destruct (Ascii.eqb_spec c sep) as [->|Hne].
    + by constructor.
    + destruct (Str.split sep s) as [|seg segs]; simpl.
      * constructor; [|done]. simpl.
        destruct (Ascii.eqb_spec c sep); [done|done].
      * inversion IH; subst. constructor; [|done]. simpl.
        destruct (Ascii.eqb_spec c sep); [done|done].
Qed.

End StrFacts.

Lemma truthy_Some (v : option string) :
  JS.truthy v = true ↔ ∃ s, v = Some s ∧ s ≠ "".
Proof.
  destruct v as [[|c s]|]; simpl; split; try done.
  - intros (s & [= <-] & Hs). done.
  - intros _. by eexists.
  - intros (s & [=] & _).
Qed.

(** ** The agent start-up *)

Section Startup.
Import Index.

Lemma undetermined_falsy (v : option string) : undetermined v ↔ JS.truthy v = false.
Proof.
  destruct v as [[|c s]|]; unfold undetermined; simpl; split; try done.
  all: try (intros [|]; done). all: auto.
Qed.

Lemma backupFire_dummy_cases (config : option Env.BackupFireEnvConfig) (env : ProcessEnv) :
  config = None
  ∨ functionName (getRuntimeEnv env) ≠ Some "backupfire"
  ∨ isCompleteRuntimeEnv (getRuntimeEnv env) = false →
  (backupFire config env).1 = dummyHandler ∧ fetched (backupFire config env).2 = [].
Proof.
  intros H. unfold backupFire.
  destruct config as [envConfig|]; [|done].
  case_bool_decide as Hname; simpl.
  - destruct (isCompleteRuntimeEnv (getRuntimeEnv env)) eqn:Hc; simpl; [|done].
    destruct H as [|[|]]; congruence.
  - by case_match.
Qed.

Lemma createApp_cases (runtimeEnv : RuntimeEnvironment) (options : BackupFireOptions) :
  (controllerToken options = ""
   ∧ createApp runtimeEnv options = inl (Error "secret should be set"))
  ∨ (controllerToken options ≠ ""
     ∧ ∃ routes,
         createApp runtimeEnv options
         = inr (use_jwt (controllerToken options) :: use_bodyParser_json
                :: use_cors :: routes)
         ∧ Forall (λ l, is_route l = true) routes
         ∧ route POST "/users"
             (backupUsersMiddleware
                {| Users.bucketsAllowlist := bucketsAllowlist options;
                   Users.projectId := Url.or_empty (projectId runtimeEnv) |}) ∈ routes
         ∧ Forall (λ m, allowlist_given m = None
                        ∨ allowlist_given m = Some (bucketsAllowlist options))
             (mounted routes)).
Proof.
  unfold createApp, jwt. destruct (controllerToken options) as [|c t]; [by left|].
  right. split; [done|]. eexists. cbn [Str.is_empty]. split_and!; [reflexivity|..].
  - repeat constructor.
  - apply list_elem_of_In. simpl. auto.
  - cbn. repeat (apply Forall_cons; split; [auto|]). apply Forall_nil_2.
Qed.

(** A start-up that passes the three checks prints, pings and then
    creates the app. *)
Lemma backupFire_initialized (envConfig : Env.BackupFireEnvConfig) (env : ProcessEnv) :
  functionName (getRuntimeEnv env) = Some "backupfire" →
  isCompleteRuntimeEnv (getRuntimeEnv env) = true →
  (backupFire (Some envConfig) env).1
  = match createApp (getRuntimeEnv env) (deriveOptions envConfig) with
    | inr app => Returned (onRequest defaultRegion (App app))
    | inl e => Threw e
    end
  ∧ fetched (backupFire (Some envConfig) env).2
    = [pingURL (deriveOptions envConfig) (getRuntimeEnv env)]
  ∧ printed_options (backupFire (Some envConfig) env).2
    = if debug (deriveOptions envConfig) then [deriveOptions envConfig] else [].
Proof.
  intros Hname Hc. unfold backupFire.
  rewrite (bool_decide_eq_true_2 _ Hname), Hc. cbn [negb].
  destruct (createApp _ _); cbn [fst snd]; (split; [done|]);
    by destruct (debug (deriveOptions envConfig)).
Qed.

Lemma backupFire_agent_cases (config : option Env.BackupFireEnvConfig) (env : ProcessEnv)
    (region : string) (layers : list Layer) :
  (backupFire config env).1 = onRequest region (App layers) →
  ∃ envConfig,
    config = Some envConfig
    ∧ functionName (getRuntimeEnv env) = Some "backupfire"
    ∧ isCompleteRuntimeEnv (getRuntimeEnv env) = true
    ∧ region = defaultRegion
    ∧ createApp (getRuntimeEnv env) (deriveOptions envConfig) = inr layers
    ∧ fetched (backupFire config env).2
      = [pingURL (deriveOptions envConfig) (getRuntimeEnv env)].
Proof.
  destruct config as [envConfig|]; [|done].
  destruct (decide (functionName (getRuntimeEnv env) = Some "backupfire")) as [Hname|Hname].
  2: { destruct (backupFire_dummy_cases (Some envConfig) env) as [-> _]; by auto. }
  destruct (isCompleteRuntimeEnv (getRuntimeEnv env)) eqn:Hc.
  2: { destruct (backupFire_dummy_cases (Some envConfig) env) as [-> _]; by auto. }
  destruct (backupFire_initialized envConfig env Hname Hc) as (-> & Hf & _).
  destruct (createApp _ _) as [e|app] eqn:Happ; [done|].
  intros [= <- <-]. by exists envConfig.
Qed.

Lemma backupFire_threw_cases (config : option Env.BackupFireEnvConfig) (env : ProcessEnv)
    (e : Exception) :
  (backupFire config env).1 = Threw e →
  ∃ envConfig,
    config = Some envConfig
    ∧ functionName (getRuntimeEnv env) = Some "backupfire"
    ∧ isCompleteRuntimeEnv (getRuntimeEnv env) = true
    ∧ createApp (getRuntimeEnv env) (deriveOptions envConfig) = inl e
    ∧ fetched (backupFire config env).2
      = [pingURL (deriveOptions envConfig) (getRuntimeEnv env)].
Proof.
  destruct config as [envConfig|]; [|done].
  destruct (decide (functionName (getRuntimeEnv env) = Some "backupfire")) as [Hname|Hname].
  2: { destruct (backupFire_dummy_cases (Some envConfig) env) as [-> _]; by auto. }
  destruct (isCompleteRuntimeEnv (getRuntimeEnv env)) eqn:Hc.
  2: { destruct (backupFire_dummy_cases (Some envConfig) env) as [-> _]; by auto. }
  destruct (backupFire_initialized envConfig env Hname Hc) as (-> & Hf & _).
  destruct (createApp _ _) as [e'|app] eqn:Happ; [|done].
  intros [= <-]. by exists envConfig.
Qed.

End Startup.

(** ** Percent-encoding *)

Section Escaping.
Import Querystring.

Lemma app_cons (c : ascii) (s t : string) : String c s +:+ t = String c (s +:+ t).
Proof. reflexivity. Qed.

Lemma app_nil_l (s : string) : "" +:+ s = s.
Proof. reflexivity. Qed.

Lemma app_nil_r (s : string) : s +:+ "" = s.
Proof. induction s as [|c s IH]; [done|]. by rewrite app_cons, IH. Qed.

Lemma app_assoc (s t u : string) : (s +:+ t) +:+ u = s +:+ t +:+ u.
Proof. induction s as [|c s IH]; [done|]. by rewrite !app_cons, IH. Qed.

Lemma all_chars_app (p : ascii → bool) (s t : string) :
  Str.all_chars p (s +:+ t) = Str.all_chars p s && Str.all_chars p t.
Proof.
  induction s as [|c s IH]; [done|].
  rewrite app_cons. simpl. by rewrite IH, andb_assoc.
Qed.

Lemma qsEscape_cons (c : ascii) (s : string) :
  qsEscape (String c s)
  = if noEscape c then String c (qsEscape s) else hexTable c +:+ qsEscape s.
Proof. reflexivity. Qed.

Lemma hexTable_written (c : ascii) : Str.all_chars written (hexTable c) = true.
Proof. destruct c as [[] [] [] [] [] [] [] []]; vm_compute; reflexivity. Qed.

Lemma qsEscape_written (s : string) : Str.all_chars written (qsEscape s) = true.
Proof.
  induction s as [|c s IH]; [done|].
  rewrite qsEscape_cons. destruct (noEscape c) eqn:Hc.
  - cbn [Str.all_chars]. rewrite IH. unfold written. by rewrite Hc.
  - by rewrite all_chars_app, hexTable_written, IH.
Qed.

Lemma all_chars_contains (p : ascii → bool) (c : ascii) (s : string) :
  p c = false → Str.all_chars p s = true → Str.contains c s = false.
Proof.
  intros Hc. induction s as [|a s IH]; [done|]. simpl.
  intros [Ha Hs]%andb_prop. rewrite (IH Hs), orb_false_r.
  destruct (Ascii.eqb_spec a c); congruence.
Qed.

Lemma replace_all_absent (c : ascii) (by_ s : string) :
  Str.contains c s = false → Url.replace_all c by_ s = s.
Proof.
  induction s as [|a s IH]; [done|]. simpl.
  destruct (Ascii.eqb a c); [done|]. simpl. intros H. by rewrite IH.
Qed.

Lemma contains_app (c : ascii) (s t : string) :
  Str.contains c (s +:+ t) = Str.contains c s || Str.contains c t.
Proof.
  induction s as [|a s IH]; [done|].
  rewrite app_cons. simpl. by rewrite IH, orb_assoc.
Qed.

Lemma qsEscape_no_hash (s : string) : Str.contains "#" (qsEscape s) = false.
Proof. apply (all_chars_contains written); [done|apply qsEscape_written]. Qed.

(** A percent-encoded value holds none of the separators of a query. *)
Lemma qsEscape_no_separator (s : string) :
  Str.contains "&" (qsEscape s) = false ∧ Str.contains "=" (qsEscape s) = false.
Proof.
  split; (apply (all_chars_contains written); [done|apply qsEscape_written]).
Qed.

Lemma hex_digit_value (k : nat) : k < 16 → Json.hex_value (hex_digit k) = Some k.
Proof. intros Hk. do 16 (destruct k as [|k]; [reflexivity|]). lia. Qed.

Lemma hexTable_inj (c d : ascii) : hexTable c = hexTable d → c = d.
Proof.
  unfold hexTable.
  pose proof (nat_ascii_bounded c) as Hc. pose proof (nat_ascii_bounded d) as Hd.
  pose proof (Nat.div_mod_eq (nat_of_ascii c) 16) as Ec.
  pose proof (Nat.div_mod_eq (nat_of_ascii d) 16) as Ed.
  assert (nat_of_ascii c / 16 < 16) as Hc1 by (apply Nat.Div0.div_lt_upper_bound; lia).
  assert (nat_of_ascii d / 16 < 16) as Hd1 by (apply Nat.Div0.div_lt_upper_bound; lia).
  assert (nat_of_ascii c mod 16 < 16) as Hc2 by (apply Nat.mod_upper_bound; lia).
  assert (nat_of_ascii d mod 16 < 16) as Hd2 by (apply Nat.mod_upper_bound; lia).
  revert Ec Ed Hc1 Hd1 Hc2 Hd2.
  generalize (nat_of_ascii c / 16) (nat_of_ascii c mod 16)
             (nat_of_ascii d / 16) (nat_of_ascii d mod 16).
  intros a1 a2 b1 b2 Ec Ed Hc1 Hd1 Hc2 Hd2 H.
  injection H as H1 H2.
  assert (a1 = b1) as ->.
  { apply (inj Some). by rewrite <- !hex_digit_value, H1. }
  assert (a2 = b2) as ->.
  { apply (inj Some). by rewrite <- !hex_digit_value, H2. }
  rewrite <- (ascii_nat_embedding c), <- (ascii_nat_embedding d). f_equal. lia.
Qed.

Lemma hexTable_app_inj (c d : ascii) (x y : string) :
  hexTable c +:+ x = hexTable d +:+ y → hexTable c = hexTable d ∧ x = y.
Proof.
  unfold hexTable.
  generalize (hex_digit (nat_of_ascii c / 16)) (hex_digit (nat_of_ascii c mod 16))
             (hex_digit (nat_of_ascii d / 16)) (hex_digit (nat_of_ascii d mod 16)).
  intros h1 h2 h3 h4. rewrite !app_cons, !app_nil_l. by intros [= -> -> ->].
Qed.

(** Percent-encoding loses nothing: two values with one encoding are one
    value. *)
Lemma qsEscape_inj (s t : string) : qsEscape s = qsEscape t → s = t.
Proof.
  revert t. induction s as [|c s IH]; intros [|d t]; rewrite ?qsEscape_cons.
  - done.
  - by destruct (noEscape d).
  - by destruct (noEscape c).
  - destruct (noEscape c) eqn:Hc, (noEscape d) eqn:Hd.
    + intros [= -> H]. by rewrite (IH t H).
    + unfold hexTable. rewrite !app_cons. intros [= -> _]. done.
    + unfold hexTable. rewrite !app_cons. intros [= <- _]. done.
    + intros H.
      apply hexTable_app_inj in H as [Hh Hs].
      by rewrite (hexTable_inj c d Hh), (IH t Hs).
Qed.

(** The query of the initialization ping, written out. *)
Lemma stringify_ping (t p a : string) :
  stringify [("token", t); ("projectId", p); ("agentURL", a)]
  = "token=" +:+ qsEscape t +:+ "&projectId=" +:+ qsEscape p
    +:+ "&agentURL=" +:+ qsEscape a.
Proof.
  unfold stringify. simpl List.map. rewrite !join_cons.
  change (qsEscape "token") with "token".
  change (qsEscape "projectId") with "projectId".
  change (qsEscape "agentURL") with "agentURL".
  simpl Str.join. rewrite !app_assoc. reflexivity.
Qed.

End Escaping.

Section Ping.
Import Index.

Lemma format_https_ping (h : string) (q : list (string * string)) :
  h ≠ "" →
  Querystring.stringify q ≠ "" →
  Url.format {| Url.hostname := Some h; Url.protocol := Some "https";
                Url.pathname := Some "/ping"; Url.query := Some q |}
  = "https://" +:+ (if Str.contains ":" h then "[" +:+ h +:+ "]" else h)
    +:+ "/ping?" +:+ Url.replace_all "#" "%23" (Querystring.stringify q).
Proof.
  intros Hh Hq. unfold Url.format.
  cbn [Url.hostname Url.protocol Url.pathname Url.query Url.or_empty].
  destruct h as [|c h]; [done|]. cbn [Str.is_empty].
  destruct (Querystring.stringify q) as [|c' qs] eqn:Eq; [done|]. cbn [Str.is_empty].
  set (host := if Str.contains ":" (String c h) then _ else _).
  assert (Str.is_empty host = false) as Hhost.
  { subst host. by destruct (Str.contains ":" (String c h)). }
  change (if negb false && negb (Url.ends_with ":" "https") then "https" +:+ ":" else "https")
    with "https:".
  change (Url.replace_all "?" "%3F" (Url.replace_all "#" "%23" "/ping")) with "/ping".
  replace (bool_decide ("https:" ∈ Url.slashedProtocol)) with true
    by (symmetry; vm_compute; reflexivity).
  rewrite Hhost. cbn [negb Str.is_empty Str.starts_with].
  change (if true && negb (Ascii.eqb "/" "/") then "/" +:+ "/ping" else "/ping")
    with "/ping".
  change (Url.replace_all "#" "%23" ("?" +:+ String c' qs))
    with ("?" +:+ Url.replace_all "#" "%23" (String c' qs)).
  change "/ping?" with ("/ping" +:+ "?"). change "https://" with ("https:" +:+ "//").
  by rewrite !app_assoc.
Qed.

Lemma stringify_ping_nonempty (t p a : string) :
  Querystring.stringify [("token", t); ("projectId", p); ("agentURL", a)] ≠ "".
Proof. by rewrite stringify_ping. Qed.

Lemma pingURL_written_out (options : BackupFireOptions) (runtimeEnv : RuntimeEnvironment)
    (h p : string) :
  JS.or (controllerDomain options) (Some defaultControllerDomain) = Some h →
  h ≠ "" →
  projectId runtimeEnv = Some p →
  pingURL options runtimeEnv
  = "https://" +:+ (if Str.contains ":" h then "[" +:+ h +:+ "]" else h)
    +:+ "/ping?token=" +:+ Querystring.qsEscape (controllerToken options)
    +:+ "&projectId=" +:+ Querystring.qsEscape p
    +:+ "&agentURL=" +:+ Querystring.qsEscape (agentURL runtimeEnv).
Proof.
  intros Hd Hh Hp. unfold pingURL. rewrite Hd, Hp. cbn [Url.or_empty].
  rewrite format_https_ping by (done || apply stringify_ping_nonempty).
  rewrite stringify_ping.
  rewrite replace_all_absent.
  - change "/ping?token=" with ("/ping?" +:+ "token="). by rewrite !app_assoc.
  - rewrite !contains_app, !qsEscape_no_hash. reflexivity.
Qed.

End Ping.

Section StartupClaims.
Import Index.

(** C7. When a component of the runtime identity (project id, function
    name or region) cannot be determined, [backupFire] gives the dummy
    handler: it ends the response of every request, nothing is handed to
    the agent's Express app, and no ping is sent. *)
Theorem incomplete_environment_installs_dummy
    (config : option Env.BackupFireEnvConfig) (env : ProcessEnv) :
  undetermined (projectId (getRuntimeEnv env))
  ∨ undetermined (functionName (getRuntimeEnv env))
  ∨ undetermined (region (getRuntimeEnv env)) →
  (backupFire config env).1 = dummyHandler
  ∧ (∀ req, serve (backupFire config env).1 req = Ended)
  ∧ fetched (backupFire config env).2 = [].
Proof.
  intros H.
  assert (isCompleteRuntimeEnv (getRuntimeEnv env) = false) as Hc.
  { unfold isCompleteRuntimeEnv.
    destruct H as [H|[H|H]]; apply undetermined_falsy in H; rewrite H;
      by rewrite ?andb_false_r. }
  destruct (backupFire_dummy_cases config env) as [Hd Hf]; [by auto|].
  split_and!; [done| |done]. intros req. by rewrite Hd.
Qed.

Lemma incomplete_environment_witness :
  (backupFire (Some (Demo.envConfig None))
     (Demo.processEnv None (Some "backupfire"))).1 = dummyHandler
  ∧ (∀ req, serve (backupFire (Some (Demo.envConfig None))
                     (Demo.processEnv None (Some "backupfire"))).1 req = Ended)
  ∧ fetched (backupFire (Some (Demo.envConfig None))
               (Demo.processEnv None (Some "backupfire"))).2 = [].
Proof.
  apply (incomplete_environment_installs_dummy (Some (Demo.envConfig None))
           (Demo.processEnv None (Some "backupfire"))).
  left. left. reflexivity.
Defined.

(** C9. When the resolved function name is not exactly [backupfire],
    [backupFire] gives the dummy handler, whatever the configuration and
    the rest of the runtime environment; the agent's app is only ever
    mounted under the function name [backupfire]. *)
Theorem agent_only_under_backupfire
    (config : option Env.BackupFireEnvConfig) (env : ProcessEnv) :
  (functionName (getRuntimeEnv env) ≠ Some "backupfire" →
   (backupFire config env).1 = dummyHandler
   ∧ ∀ req, serve (backupFire config env).1 req = Ended)
  ∧ (∀ region layers,
       (backupFire config env).1 = onRequest region (App layers) →
       functionName (getRuntimeEnv env) = Some "backupfire").
Proof.
  split.
  - intros Hname.
    destruct (backupFire_dummy_cases config env) as [Hd _]; [by auto|].
    split; [done|]. intros req. by rewrite Hd.
  - intros region layers Happ.
    by destruct (backupFire_agent_cases _ _ _ _ Happ) as (? & _ & ? & _).
Qed.

Lemma agent_only_under_backupfire_witness :
  (backupFire (Some (Demo.envConfig None))
     (Demo.processEnv (Some "proj") (Some "api"))).1 = dummyHandler
  ∧ ∀ req, serve (backupFire (Some (Demo.envConfig None))
                    (Demo.processEnv (Some "proj") (Some "api"))).1 req = Ended.
Proof.
  apply (agent_only_under_backupfire (Some (Demo.envConfig None))
           (Demo.processEnv (Some "proj") (Some "api"))).
  discriminate.
Defined.

(** C10. The derived [bucketsAllowlist] is [undefined] or a non-empty
    list: a missing or empty allowlist string gives [undefined], a
    non-empty string gives its comma-separated segments (joined by commas
    they give the string back, and none holds a comma); the list is never
    empty. *)
Theorem allowlist_undefined_or_nonempty (envConfig : Env.BackupFireEnvConfig) :
  (bucketsAllowlist (deriveOptions envConfig) = None
   ∨ ∃ buckets, bucketsAllowlist (deriveOptions envConfig) = Some buckets
                ∧ buckets ≠ [])
  ∧ (Env.allowlist envConfig = None ∨ Env.allowlist envConfig = Some "" →
     bucketsAllowlist (deriveOptions envConfig) = None)
  ∧ (∀ s, Env.allowlist envConfig = Some s → s ≠ "" →
       bucketsAllowlist (deriveOptions envConfig) = Some (Str.split "," s)
       ∧ Str.join "," (Str.split "," s) = s
       ∧ Forall (λ seg, Str.contains "," seg = false) (Str.split "," s)).
Proof.
  unfold deriveOptions, deriveAllowlist. cbn [bucketsAllowlist].
  split_and!.
  - destruct (Env.allowlist envConfig) as [[|c s]|];
      cbn [JS.truthy Str.is_empty negb]; [by left| |by left].
    right. eexists. split; [done|]. apply split_nonempty.
  - by intros [-> | ->].
  - intros s -> Hs. destruct s as [|c s]; [done|]. cbn [JS.truthy Str.is_empty negb].
    split_and!; [done|apply join_split|apply split_no_sep].
Qed.

Lemma allowlist_witness :
  bucketsAllowlist (deriveOptions (Demo.envConfig (Some "b1,b2"))) = Some ["b1"; "b2"].
Proof.
  destruct (allowlist_undefined_or_nonempty (Demo.envConfig (Some "b1,b2")))
    as (_ & _ & H).
  destruct (H "b1,b2") as (-> & _); [reflexivity|discriminate|reflexivity].
Defined.

Example ping_of_the_demo_agent :
  fetched (backupFire (Some (Demo.envConfig None))
             (Demo.processEnv (Some "proj") (Some "backupfire"))).2
  = ["https://backupfire.dev/ping?token=secret%20token&projectId=proj&agentURL=https%3A%2F%2Fus-central1-proj.cloudfunctions.net%2Fbackupfire"].
Proof. reflexivity. Qed.

End StartupClaims.

(** ** The users backup *)

(** Unfold the steps of a run down to matches on the platform's answers. *)
Ltac run_steps :=
  repeat (unfold Users.catch, Users.bind, Users.readFile, Users.unlink, Users.upload,
            Users.emit, Users.lift, Users.ret; simpl).

Section UsersRuns.
Import Users.
Variable P : Platform.

Lemma countUsers_run (file : string) (w : World) :
  countUsers P file w
  = (Resolved (usersCountOf P (files w !! file)),
     {| files := files w; trace := trace w ++ [ReadFile file] |}).
Proof.
  unfold usersCountOf, countUsers. run_steps.
  destruct (files w !! file) as [content|]; [|done].
  destruct (parse P content) as [v|]; [|done].
  destruct (get_users v) as [u|]; [|done].
  by destruct (get_length u).
Qed.

Lemma backupUsers_run (pid : string) (opts : UsersBackupRequestOptions) (w : World) :
  backupUsers P pid opts w
  = let file := tmpPath P (path opts) in
    let t1 := trace w ++ [AuthExport file pid] in
    match auth_export P file pid (files w) with
    | (Rejected e, fs1) => (Rejected e, {| files := fs1; trace := t1 |})
    | (Resolved _, fs1) =>
        let count := usersCountOf P (fs1 !! file) in
        let t2 := t1 ++ [ReadFile file] in
        if JS.is_undefined count then
          match fs1 !! file with
          | Some _ =>
              (Resolved (Failed "Failed to parse the backup file"),
               {| files := delete file fs1; trace := t2 ++ [Unlink file] |})
          | None =>
              (Rejected (no_file P file), {| files := fs1; trace := t2 ++ [Unlink file] |})
          end
        else
          let t3 := t2 ++ [Upload (storageId opts) file (path opts)] in
          match fs1 !! file with
          | Some content =>
              match bucket_upload P (storageId opts) content (path opts) with
              | Resolved size =>
                  (Resolved (Completed count size),
                   {| files := delete file fs1; trace := t3 ++ [Unlink file] |})
              | Rejected e => (Rejected e, {| files := fs1; trace := t3 |})
              end
          | None => (Rejected (no_file P file), {| files := fs1; trace := t3 |})
          end
    end.
Proof.
  unfold backupUsers. cbv zeta.
  set (file := tmpPath P (path opts)).
  unfold export. run_steps.
  destruct (auth_export P file pid (files w)) as [[[]|e] fs1]; [|done].
  rewrite countUsers_run. cbn [files trace].
  destruct (JS.is_undefined (usersCountOf P (fs1 !! file))); cbn [files trace].
  - by destruct (fs1 !! file).
  - destruct (fs1 !! file) as [content|] eqn:Hf; [|done].
    destruct (bucket_upload P (storageId opts) content (path opts)); [|done].
    cbn [files trace]. by rewrite Hf.
Qed.

End UsersRuns.

Section UsersCount.
Import Users.
Variable P : Platform.

Lemma usersCountOf_unparsed (content : string) :
  JSON_parse P content = None → usersCountOf P (Some content) = JS.Undefined.
Proof. unfold usersCountOf, parse. by intros ->. Qed.

Lemma usersCountOf_uncountable (content : string) (v : JS.Value) :
  JSON_parse P content = Some v → countable (users_of v) = false →
  usersCountOf P (Some content) = JS.Undefined.
Proof.
  unfold usersCountOf, parse. intros ->.
  destruct v as [| | | | |elems|props]; try done. simpl.
  destruct (JS.own_property props "users") as [| | | | | |props']; try done. simpl.
  by destruct (JS.own_property props' "length").
Qed.

Lemma usersCountOf_countable (content : string) (v : JS.Value) :
  JSON_parse P content = Some v → countable (users_of v) = true →
  JS.is_undefined (usersCountOf P (Some content)) = false.
Proof.
  unfold usersCountOf, parse. intros ->.
  destruct v as [| | | | |elems|props]; try done. simpl.
  destruct (JS.own_property props "users") as [| | | | | |props']; try done. simpl.
  by destruct (JS.own_property props' "length").
Qed.

Lemma usersCountOf_array (content : string) (props : list (string * JS.Value))
    (elems : list JS.Value) :
  JSON_parse P content = Some (JS.Object props) →
  JS.own_property props "users" = JS.Array elems →
  usersCountOf P (Some content) = JS.Number (JS.NLength (length elems)).
Proof. unfold usersCountOf, parse. intros -> H. simpl. by rewrite H. Qed.

End UsersCount.

Section UsersClaims.
Import Users.

(** C5. When the export writes an artifact that parses to an object whose
    [users] is an array of N records, and the upload resolves to the size
    S, [backupUsers] returns [{state: 'completed', data: {usersCount: N,
    size: S}}]. *)
Theorem backupUsers_completed_count (P : Platform) (pid : string)
    (opts : UsersBackupRequestOptions) (w : World) (fs1 : gmap string string)
    (content : string) (props : list (string * JS.Value)) (elems : list JS.Value)
    (size : string) :
  auth_export P (tmpPath P (path opts)) pid (files w) = (Resolved (), fs1) →
  fs1 !! tmpPath P (path opts) = Some content →
  JSON_parse P content = Some (JS.Object props) →
  JS.own_property props "users" = JS.Array elems →
  bucket_upload P (storageId opts) content (path opts) = Resolved size →
  (backupUsers P pid opts w).1
  = Resolved (Completed (JS.Number (JS.NLength (length elems))) size).
Proof.
  intros Hexport Hfile Hparse Husers Hupload.
  rewrite backupUsers_run. cbv zeta. rewrite Hexport, Hfile.
  rewrite (usersCountOf_array P content props elems Hparse Husers).
  cbn [JS.is_undefined]. by rewrite Hupload.
Qed.

Lemma backupUsers_completed_witness :
  (Demo.run (Demo.writes (Demo.artifact 42)) (Demo.uploads "1024") "b1").1
  = Resolved (Completed (JS.Number (JS.NLength 42)) "1024").
Proof.
  apply (backupUsers_completed_count
           (Demo.platform (Demo.writes (Demo.artifact 42)) (Demo.uploads "1024"))
           "proj" (Demo.request "b1") (initial ∅)
           (<["/tmp/2024.json" := Demo.artifact 42]> ∅) (Demo.artifact 42)
           [("users", JS.Array (replicate 42 (JS.Object [])))]
           (replicate 42 (JS.Object [])) "1024");
    vm_compute; reflexivity.
Defined.

(** C4, as the code has it. When the exported artifact is not valid
    JSON, or parses to a value whose [users] has no defined [length] (the
    value is not an object, or its [users] is missing, [null], a number, a
    boolean, or an object without a [length]), [backupUsers] returns
    [{state: 'failed', data: {reason: 'Failed to parse the backup file'}}]
    after exactly these calls: the export, the read, and one unlink of the
    temporary file, which is gone; there is no upload. *)
Theorem backupUsers_unreadable_artifact (P : Platform) (pid : string)
    (opts : UsersBackupRequestOptions) (w : World) (fs1 : gmap string string)
    (content : string) :
  auth_export P (tmpPath P (path opts)) pid (files w) = (Resolved (), fs1) →
  fs1 !! tmpPath P (path opts) = Some content →
  (JSON_parse P content = None
   ∨ ∃ v, JSON_parse P content = Some v ∧ countable (users_of v) = false) →
  (backupUsers P pid opts w).1 = Resolved (Failed "Failed to parse the backup file")
  ∧ trace (backupUsers P pid opts w).2
    = trace w ++ [AuthExport (tmpPath P (path opts)) pid;
                  ReadFile (tmpPath P (path opts));
                  Unlink (tmpPath P (path opts))]
  ∧ files (backupUsers P pid opts w).2 !! tmpPath P (path opts) = None.
Proof.
  intros Hexport Hfile Hbad.
  assert (usersCountOf P (Some content) = JS.Undefined) as Hcount.
  { destruct Hbad as [Hnone|(v & Hv & Hu)].
    - by apply usersCountOf_unparsed.
    - by apply (usersCountOf_uncountable P content v). }
  rewrite backupUsers_run. cbv zeta. rewrite Hexport, Hfile, Hcount.
  cbn [JS.is_undefined fst snd files trace]. split_and!.
  - done.
  - by rewrite <- !(assoc_L (++)).
  - apply lookup_delete_eq.
Qed.

Lemma backupUsers_unreadable_witness :
  (Demo.run (Demo.writes "{") (Demo.uploads "1024") "b1").1
  = Resolved (Failed "Failed to parse the backup file")
  ∧ trace (Demo.run (Demo.writes "{") (Demo.uploads "1024") "b1").2
    = [] ++ [AuthExport "/tmp/2024.json" "proj"; ReadFile "/tmp/2024.json";
             Unlink "/tmp/2024.json"]
  ∧ files (Demo.run (Demo.writes "{") (Demo.uploads "1024") "b1").2
      !! "/tmp/2024.json" = None.
Proof.
  apply (backupUsers_unreadable_artifact
           (Demo.platform (Demo.writes "{") (Demo.uploads "1024"))
           "proj" (Demo.request "b1") (initial ∅)
           (<["/tmp/2024.json" := "{"]> ∅) "{").
  - vm_compute; reflexivity.
  - vm_compute; reflexivity.
  - left. vm_compute; reflexivity.
Defined.

(** C4, as it is stated, fails: the artifact [{"users":"abc"}] parses to
    a value that holds no users array, and [backupUsers] counts the three
    characters of the string, uploads the file and returns
    [{state: 'completed', ...}]. *)
Lemma string_users_is_counted :
  (∃ v, Json.parse Demo.artifact_string = Some v ∧ ¬ has_users_array v)
  ∧ (Demo.run (Demo.writes Demo.artifact_string) (Demo.uploads "1024") "b1").1
    = Resolved (Completed (JS.Number (JS.NLength 3)) "1024")
  ∧ Upload "b1" "/tmp/2024.json" "users/2024.json"
    ∈ trace (Demo.run (Demo.writes Demo.artifact_string) (Demo.uploads "1024") "b1").2.
Proof.
  split_and!.
  - exists (JS.Object [("users", JS.Str "abc")]). split; [reflexivity|].
    intros [elems [=]].
  - reflexivity.
  - vm_compute. set_solver.
Qed.

End UsersClaims.

Section UsersFailures.
Import Users.

(** C3, as the code has it. Of the failures of the export, the parse and
    the upload, only the parse failure is captured and turned into the
    terminal value [{state: 'failed', data: {reason: 'Failed to parse the
    backup file'}}]. An export error or an upload error is not captured:
    the promise of [backupUsers] is rejected with that error, and there is
    no status value. *)
Theorem backupUsers_failure_outcomes (P : Platform) (pid : string)
    (opts : UsersBackupRequestOptions) (w : World) (o : Outcome ())
    (fs1 : gmap string string) :
  auth_export P (tmpPath P (path opts)) pid (files w) = (o, fs1) →
  (∀ e, o = Rejected e → (backupUsers P pid opts w).1 = Rejected e)
  ∧ (∀ content,
       o = Resolved () → fs1 !! tmpPath P (path opts) = Some content →
       (JSON_parse P content = None →
        (backupUsers P pid opts w).1
        = Resolved (Failed "Failed to parse the backup file"))
       ∧ (∀ v e,
            JSON_parse P content = Some v → countable (users_of v) = true →
            bucket_upload P (storageId opts) content (path opts) = Rejected e →
            (backupUsers P pid opts w).1 = Rejected e)).
Proof.
  intros Hexport. rewrite backupUsers_run. cbv zeta. rewrite Hexport. split.
  - by intros e ->.
  - intros content -> Hfile. rewrite Hfile. split.
    + intros Hnone. by rewrite (usersCountOf_unparsed P content Hnone).
    + intros v e Hv Hcount Hupload.
      rewrite (usersCountOf_countable P content v Hv Hcount). by rewrite Hupload.
Qed.

Lemma backupUsers_failure_witness :
  (Demo.run (Demo.export_fails "denied") (Demo.uploads "1024") "b1").1
  = Rejected (PlatformError "denied")
  ∧ (Demo.run (Demo.writes "{") (Demo.uploads "1024") "b1").1
    = Resolved (Failed "Failed to parse the backup file")
  ∧ (Demo.run (Demo.writes (Demo.artifact 2)) (Demo.upload_fails "quota") "b1").1
    = Rejected (PlatformError "quota").
Proof.
  split_and!.
  - apply (backupUsers_failure_outcomes
             (Demo.platform (Demo.export_fails "denied") (Demo.uploads "1024"))
             "proj" (Demo.request "b1") (initial ∅)
             (Rejected (PlatformError "denied")) ∅); reflexivity.
  - apply (backupUsers_failure_outcomes
             (Demo.platform (Demo.writes "{") (Demo.uploads "1024"))
             "proj" (Demo.request "b1") (initial ∅)
             (Resolved ()) (<["/tmp/2024.json" := "{"]> ∅)) with (content := "{");
      vm_compute; reflexivity.
  - apply (backupUsers_failure_outcomes
             (Demo.platform (Demo.writes (Demo.artifact 2)) (Demo.upload_fails "quota"))
             "proj" (Demo.request "b1") (initial ∅)
             (Resolved ()) (<["/tmp/2024.json" := Demo.artifact 2]> ∅))
      with (content := Demo.artifact 2)
           (v := JS.Object [("users", JS.Array [JS.Object []; JS.Object []])]);
      vm_compute; reflexivity.
Defined.

(** C3, as it is stated, fails: when the upload fails, and when the
    export fails, [backupUsers] is rejected with the error and resolves to
    no status at all. *)
Lemma upload_error_is_not_captured :
  (Demo.run (Demo.writes (Demo.artifact 2)) (Demo.upload_fails "quota") "b1").1
  = Rejected (PlatformError "quota")
  ∧ (Demo.run (Demo.export_fails "denied") (Demo.uploads "1024") "b1").1
    = Rejected (PlatformError "denied")
  ∧ ¬ (∃ reason,
         (Demo.run (Demo.writes (Demo.artifact 2)) (Demo.upload_fails "quota") "b1").1
         = Resolved (Failed reason)).
Proof.
  split_and!; [reflexivity..|]. intros [reason H]. vm_compute in H. discriminate.
Qed.

(** When [backupUsers] does return a status, completed or failed, the
    temporary file has been unlinked once and is gone. *)
Lemma returned_status_unlinks_once (P : Platform) (pid : string)
    (opts : UsersBackupRequestOptions) (w w' : World) (r : UsersStatusResponse) :
  backupUsers P pid opts w = (Resolved r, w') →
  unlinks (tmpPath P (path opts)) (trace w')
  = S (unlinks (tmpPath P (path opts)) (trace w))
  ∧ files w' !! tmpPath P (path opts) = None.
Proof.
  rewrite backupUsers_run. cbv zeta.
  destruct (auth_export _ _ _ _) as [[[]|e] fs1]; [|done].
  unfold unlinks.
  destruct (JS.is_undefined _); destruct (fs1 !! _) as [content|]; try done.
  - intros [= <- <-]. cbn [files trace].
    rewrite !List.filter_app, !length_app. simpl. rewrite String.eqb_refl. simpl.
    split; [lia|apply lookup_delete_eq].
  - destruct (bucket_upload _ _ _ _); [|done].
    intros [= <- <-]. cbn [files trace].
    rewrite !List.filter_app, !length_app. simpl. rewrite String.eqb_refl. simpl.
    split; [lia|apply lookup_delete_eq].
Qed.

(** A failed upload ends the run before the unlink: the file system is as
    the export left it, and the upload is the last call. *)
Lemma upload_failure_skips_unlink (P : Platform) (pid : string)
    (opts : UsersBackupRequestOptions) (w : World) (fs1 : gmap string string)
    (content : string) (v : JS.Value) (e : Error) :
  auth_export P (tmpPath P (path opts)) pid (files w) = (Resolved (), fs1) →
  fs1 !! tmpPath P (path opts) = Some content →
  JSON_parse P content = Some v → countable (users_of v) = true →
  bucket_upload P (storageId opts) content (path opts) = Rejected e →
  backupUsers P pid opts w
  = (Rejected e,
     {| files := fs1;
        trace := trace w ++ [AuthExport (tmpPath P (path opts)) pid;
                             ReadFile (tmpPath P (path opts));
                             Upload (storageId opts) (tmpPath P (path opts)) (path opts)] |}).
Proof.
  intros Hexport Hfile Hv Hcount Hupload.
  rewrite backupUsers_run. cbv zeta. rewrite Hexport, Hfile.
  rewrite (usersCountOf_countable P content v Hv Hcount), Hupload.
  by rewrite <- !(assoc_L (++)).
Qed.

(** C2, where the code breaks it. The export writes a well-formed
    artifact and the upload fails: the handler is rejected, the temporary
    file was never unlinked and is still there with its content, and no
    response was produced. *)
Theorem upload_failure_leaves_artifact :
  (Demo.serve_users None (Demo.writes (Demo.artifact 2)) (Demo.upload_fails "quota") "b1").1
  = Rejected (PlatformError "quota")
  ∧ trace (Demo.serve_users None (Demo.writes (Demo.artifact 2))
             (Demo.upload_fails "quota") "b1").2
    = [AuthExport "/tmp/2024.json" "proj"; ReadFile "/tmp/2024.json";
       Upload "b1" "/tmp/2024.json" "users/2024.json"]
  ∧ unlinks "/tmp/2024.json"
      (trace (Demo.serve_users None (Demo.writes (Demo.artifact 2))
                (Demo.upload_fails "quota") "b1").2) = 0
  ∧ files (Demo.serve_users None (Demo.writes (Demo.artifact 2))
             (Demo.upload_fails "quota") "b1").2 !! "/tmp/2024.json"
    = Some (Demo.artifact 2).
Proof. split_and!; vm_compute; reflexivity. Qed.

(** The handler never looks at the allowlist. *)
Lemma middleware_ignores_allowlist (allow allow' : option (list string))
    (pid : string) (P : Platform) (body : UsersBackupRequestOptions) (w : World) :
  backupUsersMiddleware {| bucketsAllowlist := allow; projectId := pid |} P body w
  = backupUsersMiddleware {| bucketsAllowlist := allow'; projectId := pid |} P body w.
Proof. reflexivity. Qed.

(** C1, where the code breaks it. Under the allowlist [b1], a request for
    the bucket [b2] is not rejected: the export is started, the file is
    read and uploaded to [b2], and the response is a completed status. *)
Theorem allowlist_is_not_enforced :
  ("b2" ∉ ["b1"])
  ∧ (Demo.serve_users (Some ["b1"]) (Demo.writes (Demo.artifact 2))
       (Demo.uploads "1024") "b2").1 = Resolved ()
  ∧ trace (Demo.serve_users (Some ["b1"]) (Demo.writes (Demo.artifact 2))
             (Demo.uploads "1024") "b2").2
    = [AuthExport "/tmp/2024.json" "proj"; ReadFile "/tmp/2024.json";
       Upload "b2" "/tmp/2024.json" "users/2024.json"; Unlink "/tmp/2024.json";
       Respond (Completed (JS.Number (JS.NLength 2)) "1024")].
Proof.
  split_and!; [|vm_compute; reflexivity..].
  apply (bool_decide_unpack _). by vm_compute.
Qed.

End UsersFailures.

(** ** Temporary paths *)

Section PathFacts.

Lemma split_app (sep : ascii) (a b : string) :
  Str.split sep (a +:+ String sep b) = Str.split sep a ++ Str.split sep b.
Proof.
  induction a as [|c a IH].
  - rewrite app_nil_l. simpl. by rewrite Ascii.eqb_refl.
  - rewrite app_cons. simpl. rewrite IH.
    destruct (Ascii.eqb c sep); [done|].
    pose proof (split_nonempty sep a) as Ha.
    by destruct (Str.split sep a).
Qed.

Lemma split_without_sep (sep : ascii) (s : string) :
  Str.contains sep s = false → Str.split sep s = [s].
Proof.
  induction s as [|c s IH]; [done|]. simpl.
  destruct (Ascii.eqb c sep); [done|]. simpl. intros H. by rewrite IH.
Qed.

Lemma last_in_or_default {A} (l : list A) (d : A) : List.last l d = d ∨ List.last l d ∈ l.
Proof.
  induction l as [|x l IH]; [by left|].
  destruct l as [|y l]; [right; simpl; constructor|].
  change (List.last (x :: y :: l) d) with (List.last (y :: l) d).
  destruct IH as [IH|IH]; [by left|right; by constructor].
Qed.

Lemma base_no_slash (p : string) : Str.contains "/" (Path.base p) = false.
Proof.
  unfold Path.base.
  destruct (last_in_or_default
              (List.filter (λ seg, negb (Str.is_empty seg)) (Str.split Str.slash p)) "")
    as [->|Hin]; [done|].
  apply list_elem_of_In, List.filter_In in Hin as [Hin _].
  pose proof (split_no_sep Str.slash p) as Hall.
  rewrite Forall_forall in Hall. by apply Hall, list_elem_of_In.
Qed.

Lemma join_snoc (sep : string) (l : list string) (x : string) :
  Str.join sep (l ++ [x])
  = (match l with [] => "" | _ :: _ => Str.join sep l +:+ sep end) +:+ x.
Proof.
  induction l as [|a l IH]; [done|].
  destruct l as [|b l]; [simpl; by rewrite !app_assoc|].
  change ((a :: b :: l) ++ [x]) with (a :: b :: (l ++ [x])).
  rewrite !join_cons. change (b :: l ++ [x]) with ((b :: l) ++ [x]).
  rewrite IH. by rewrite !app_assoc.
Qed.

Lemma resolve_loop_acc (args : list string) (acc : string) :
  Path.resolve_loop args acc
  = ((Path.resolve_loop args "").1 +:+ acc, (Path.resolve_loop args "").2).
Proof.
  revert acc. induction args as [|path args IH]; intros acc; [done|]. simpl.
  destruct (Str.is_empty path); [apply IH|].
  destruct (Str.starts_with Str.slash path).
  - simpl. by rewrite !app_assoc.
  - rewrite IH, (IH (path +:+ "/" +:+ "")). simpl. by rewrite !app_assoc.
Qed.

Lemma resolve_loop_relative (f : string) (args : list string) (acc : string) :
  f ≠ "" → Str.contains "/" f = false →
  Path.resolve_loop (f :: args) acc = Path.resolve_loop args (f +:+ "/" +:+ acc).
Proof.
  intros Hne Hslash. destruct f as [|c f]; [done|].
  simpl in Hslash. apply orb_false_elim in Hslash as [Hc _].
  simpl. unfold Str.slash. by rewrite Hc.
Qed.

(** What the loop of [resolve] puts before the last argument ends at a
    segment boundary. *)
Lemma resolve_loop_slices (args : list string) :
  ∃ front, ∀ s,
    Str.split "/" ((Path.resolve_loop args "").1 +:+ s) = front ++ Str.split "/" s.
Proof.
  induction args as [|path args [front IH]]; [by exists []|]. simpl.
  destruct (Str.is_empty path); [by exists front|].
  destruct (Str.starts_with Str.slash path).
  - exists (Str.split "/" path). intros s. simpl.
    rewrite !app_assoc. apply split_app.
  - exists (front ++ Str.split "/" path). intros s.
    rewrite resolve_loop_acc. simpl. rewrite !app_assoc, IH.
    rewrite <- (assoc_L (++)). f_equal. apply split_app.
Qed.

Lemma normalize_step_plain (allow : bool) (kept : list string) (f : string) :
  Path.plain f → Path.normalize_step allow kept f = f :: kept.
Proof.
  intros (Hne & Hdot & Hdots). unfold Path.normalize_step.
  destruct f as [|c f]; [done|]. cbn [Str.is_empty orb].
  destruct (String.eqb_spec (String c f) "."); [done|].
  by destruct (String.eqb_spec (String c f) "..").
Qed.

(** Resolving a file name in the temporary directory appends the name to
    a path that does not depend on it. *)
Lemma resolve_plain (cwd tmpdir : string) :
  ∃ dir, ∀ f,
    Path.plain f → Str.contains "/" f = false →
    Path.resolve cwd [tmpdir; f] = dir +:+ f.
Proof.
  destruct (resolve_loop_slices [tmpdir; cwd]) as [front Hfront].
  set (pre := (Path.resolve_loop [tmpdir; cwd] "").1) in *.
  set (abs := (Path.resolve_loop [tmpdir; cwd] "").2).
  set (kept := λ allow, List.fold_left (Path.normalize_step allow) front []).
  exists ((if abs then "/" else "")
          +:+ match List.rev (kept (negb abs)) with
              | [] => ""
              | _ :: _ => Str.join "/" (List.rev (kept (negb abs))) +:+ "/"
              end).
  intros f Hplain Hslash. unfold Path.resolve.
  change (List.rev [tmpdir; f] ++ [cwd]) with (f :: [tmpdir; cwd]).
  assert (Path.resolve_loop (f :: [tmpdir; cwd]) "" = (pre +:+ f +:+ "/", abs)) as ->.
  { rewrite resolve_loop_relative by (done || by destruct Hplain).
    rewrite resolve_loop_acc. by rewrite app_nil_r. }
  assert (Path.normalizeString (pre +:+ f +:+ "/") (negb abs)
          = match List.rev (kept (negb abs)) with
            | [] => ""
            | _ :: _ => Str.join "/" (List.rev (kept (negb abs))) +:+ "/"
            end +:+ f) as ->.
  { unfold Path.normalizeString. unfold Str.slash. rewrite Hfront.
    change (f +:+ "/") with (f +:+ String "/" "").
    rewrite split_app, (split_without_sep _ f Hslash).
    rewrite List.fold_left_app. fold (kept (negb abs)). simpl List.fold_left.
    rewrite (normalize_step_plain _ _ f Hplain).
    change (Path.normalize_step (negb abs) (f :: kept (negb abs)) "")
      with (f :: kept (negb abs)).
    simpl List.rev. apply join_snoc. }
  destruct abs; [by rewrite app_assoc|]. rewrite app_nil_l.
  destruct Hplain as (Hne & _).
  destruct (List.rev (kept (negb false))) as [|seg segs]; [by destruct f|].
  destruct (Str.join "/" (seg :: segs)); [done|done].
Qed.

End PathFacts.

Example base_of_a_file : Path.base "users/2024.json" = "2024.json".
Proof. reflexivity. Qed.

Example base_drops_trailing_slashes : Path.base "a/b//" = "b".
Proof. reflexivity. Qed.

Example base_of_the_root : Path.base "/" = "".
Proof. reflexivity. Qed.

Example resolve_in_tmp : Path.resolve "/srv" ["/tmp"; "2024.json"] = "/tmp/2024.json".
Proof. reflexivity. Qed.

Example resolve_relative : Path.resolve "/srv" ["tmp/./x"; ".."; "y"] = "/srv/tmp/y".
Proof. reflexivity. Qed.

Example resolve_above_the_root : Path.resolve "/srv" ["/tmp"; ".."; ".."] = "/".
Proof. reflexivity. Qed.

Section TmpPathClaims.
Import Users.

(** C6, as the code has it. The temporary path is made from the base name
    of the destination path alone: two destinations with the same base
    name get the same temporary path, and two destinations whose base
    names are file names (not empty, [.] or [..]) get the same temporary
    path only if their base names are equal. *)
Theorem tmpPath_injective_on_base_names (P : Platform) (p q : string) :
  (Path.base p = Path.base q → tmpPath P p = tmpPath P q)
  ∧ (Path.plain (Path.base p) → Path.plain (Path.base q) →
     tmpPath P p = tmpPath P q → Path.base p = Path.base q).
Proof.
  unfold tmpPath. split; [by intros ->|].
  intros Hp Hq. destruct (resolve_plain (cwd P) (tmpdir P)) as [dir Hdir].
  rewrite (Hdir _ Hp (base_no_slash p)), (Hdir _ Hq (base_no_slash q)).
  apply (inj (String.app dir)).
Qed.

Lemma tmpPath_witness :
  tmpPath (Demo.platform (Demo.writes "") (Demo.uploads "")) "users/2024.json"
  = tmpPath (Demo.platform (Demo.writes "") (Demo.uploads "")) "archive/2024.json"
  ∧ (tmpPath (Demo.platform (Demo.writes "") (Demo.uploads "")) "users/2024.json"
     = tmpPath (Demo.platform (Demo.writes "") (Demo.uploads "")) "users/2025.json" →
     Path.base "users/2024.json" = Path.base "users/2025.json").
Proof.
  split.
  - apply (tmpPath_injective_on_base_names
             (Demo.platform (Demo.writes "") (Demo.uploads ""))
             "users/2024.json" "archive/2024.json"). reflexivity.
  - apply (tmpPath_injective_on_base_names
             (Demo.platform (Demo.writes "") (Demo.uploads ""))
             "users/2024.json" "users/2025.json"); by vm_compute.
Defined.

(** C6, as it is stated, fails: two distinct destination paths with the
    same base name get one temporary path. *)
Lemma tmpPath_collides :
  "users/2024.json" ≠ "archive/2024.json"
  ∧ tmpPath (Demo.platform (Demo.writes "") (Demo.uploads "")) "users/2024.json"
    = tmpPath (Demo.platform (Demo.writes "") (Demo.uploads "")) "archive/2024.json".
Proof. split; [discriminate|reflexivity]. Qed.

End TmpPathClaims.

(** * Further properties *)

(** ** The start-up, from the configuration and the process environment *)

Section StartupCoverage.
Import Index.

Lemma or_backupfire (a b : option string) :
  JS.or a b = Some "backupfire"
  ↔ a = Some "backupfire" ∨ (undetermined a ∧ b = Some "backupfire").
Proof.
  unfold JS.or, undetermined. destruct a as [[|c a]|]; simpl; split.
  all: try (intros ->; right; split; [by (left + right)|done]).
  all: try (intros [[=]|[_ ->]]; done).
  - intros H. by left.
  - intros [H|[[[=]|[=]] _]]. done.
Qed.

Lemma or_truthy (a b : option string) :
  JS.truthy (JS.or a b) = true ↔ ¬ undetermined a ∨ ¬ undetermined b.
Proof.
  rewrite !undetermined_falsy. unfold JS.or.
  destruct (JS.truthy a) eqn:Ha; [rewrite Ha; split; [by left|done]|].
  destruct (JS.truthy b) eqn:Hb; split; try done.
  - by right.
  - intros [|]; done.
Qed.

(** X1. [backupFire] returns a function that serves the agent exactly
    when the configuration is present and its token is not empty, the
    function name read from [FUNCTION_NAME], or from [FUNCTION_TARGET]
    when that one is missing or empty, is [backupfire], and one of
    [GCP_PROJECT] and [GCLOUD_PROJECT] is a non-empty string. A non-empty
    [FUNCTION_NAME] other than [backupfire] hides a [FUNCTION_TARGET] that
    is [backupfire]. Under the same name and project conditions an empty
    token makes the start-up throw [secret should be set] out of
    [createApp]: the ping has been fetched by then, no function is
    returned and no request is served. It throws in no other case. Every
    function it returns, agent or dummy, is in the default region. *)
Theorem agent_served_iff (config : option Env.BackupFireEnvConfig) (env : ProcessEnv) :
  (is_agent (backupFire config env).1 = true
   ↔ (∃ envConfig, config = Some envConfig ∧ Env.token envConfig ≠ "")
     ∧ (FUNCTION_NAME env = Some "backupfire"
        ∨ (undetermined (FUNCTION_NAME env) ∧ FUNCTION_TARGET env = Some "backupfire"))
     ∧ (¬ undetermined (GCP_PROJECT env) ∨ ¬ undetermined (GCLOUD_PROJECT env)))
  ∧ (∀ e, (backupFire config env).1 = Threw e
       ↔ e = Error "secret should be set"
         ∧ (∃ envConfig, config = Some envConfig ∧ Env.token envConfig = "")
         ∧ (FUNCTION_NAME env = Some "backupfire"
            ∨ (undetermined (FUNCTION_NAME env)
               ∧ FUNCTION_TARGET env = Some "backupfire"))
         ∧ (¬ undetermined (GCP_PROJECT env) ∨ ¬ undetermined (GCLOUD_PROJECT env)))
  ∧ (∀ e, (backupFire config env).1 = Threw e →
       length (fetched (backupFire config env).2) = 1
       ∧ ∀ req, serve (backupFire config env).1 req = NoFunction)
  ∧ (∀ f, (backupFire config env).1 = Returned f →
       ∃ listener, f = onRequest defaultRegion listener).
Proof.
  setoid_rewrite <- or_backupfire. setoid_rewrite <- or_truthy.
  change (JS.or (FUNCTION_NAME env) (FUNCTION_TARGET env))
    with (functionName (getRuntimeEnv env)).
  change (JS.or (GCP_PROJECT env) (GCLOUD_PROJECT env))
    with (projectId (getRuntimeEnv env)).
  assert (functionName (getRuntimeEnv env) = Some "backupfire" →
          isCompleteRuntimeEnv (getRuntimeEnv env)
          = JS.truthy (projectId (getRuntimeEnv env))) as Hc.
  { intros Hname. unfold isCompleteRuntimeEnv. rewrite Hname.
    cbn [region getRuntimeEnv]. apply andb_true_r. }
  assert ((backupFire config env).1 = dummyHandler →
          ¬ (∃ envConfig : Env.BackupFireEnvConfig, config = Some envConfig)
          ∨ functionName (getRuntimeEnv env) ≠ Some "backupfire"
          ∨ JS.truthy (projectId (getRuntimeEnv env)) ≠ true →
          (is_agent (backupFire config env).1 = true
           ↔ (∃ envConfig, config = Some envConfig ∧ Env.token envConfig ≠ "")
             ∧ functionName (getRuntimeEnv env) = Some "backupfire"
             ∧ JS.truthy (projectId (getRuntimeEnv env)) = true)
          ∧ (∀ e, (backupFire config env).1 = Threw e
               ↔ e = Error "secret should be set"
                 ∧ (∃ envConfig, config = Some envConfig ∧ Env.token envConfig = "")
                 ∧ functionName (getRuntimeEnv env) = Some "backupfire"
                 ∧ JS.truthy (projectId (getRuntimeEnv env)) = true)
          ∧ (∀ e, (backupFire config env).1 = Threw e →
               length (fetched (backupFire config env).2) = 1
               ∧ ∀ req, serve (backupFire config env).1 req = NoFunction)
          ∧ (∀ f, (backupFire config env).1 = Returned f →
               ∃ listener, f = onRequest defaultRegion listener)) as Hdummy.
  { intros -> Hnot. split_and!.
    - split; [done|]. intros ((? & ? & _) & ? & ?). exfalso. destruct Hnot as [Hn|[Hn|Hn]]; apply Hn; eauto.
    - intros e. split; [done|].
      intros (_ & (? & ? & _) & ? & ?). exfalso. destruct Hnot as [Hn|[Hn|Hn]]; apply Hn; eauto.
    - done.
    - intros f [= <-]. by eexists. }
  destruct config as [envConfig|].
  2: { apply Hdummy; [done|]. left. by intros (? & [=]). }
  destruct (decide (functionName (getRuntimeEnv env) = Some "backupfire")) as [Hname|Hname].
  2: { apply Hdummy; [|by auto]. apply backupFire_dummy_cases. by auto. }
  specialize (Hc Hname).
  destruct (isCompleteRuntimeEnv (getRuntimeEnv env)) eqn:Hcomp.
  2: { apply Hdummy.
       - apply backupFire_dummy_cases. by auto.
       - right. right. by rewrite <- Hc. }
  clear Hdummy. symmetry in Hc.
  destruct (backupFire_initialized envConfig env Hname Hcomp) as (Hr & Hf & _).
  rewrite Hr, Hf.
  destruct (createApp_cases (getRuntimeEnv env) (deriveOptions envConfig))
    as [[Ht ->]|[Ht (routes & -> & _)]]; cbn [controllerToken deriveOptions] in Ht.
  - split_and!.
    + split; [done|]. by intros ((? & [= <-] & ?) & _).
    + intros e. split; [|by intros (-> & _)].
      intros [= <-]. split_and!; [done|by exists envConfig|done|done].
    + done.
    + done.
  - split_and!.
    + split; [|done]. intros _. split_and!; [by exists envConfig|done|done].
    + intros e. split; [done|]. by intros (_ & (? & [= <-] & ?) & _).
    + done.
    + intros f [= <-]. by eexists.
Qed.

(** X2. A start-up fetches at most one URL, and none exactly when it
    gives the dummy handler: the ping goes out once for a served agent
    and never for the dummy. *)
Theorem ping_only_for_the_agent (config : option Env.BackupFireEnvConfig)
    (env : ProcessEnv) :
  length (fetched (backupFire config env).2) ≤ 1
  ∧ (fetched (backupFire config env).2 = [] ↔ (backupFire config env).1 = dummyHandler).
Proof.
  destruct (backupFire config env).1 as [[fregion [|layers]]|e] eqn:Hh.
  - assert ((backupFire config env).1 = dummyHandler ∧ fetched (backupFire config env).2 = [])
      as [Hd Hf].
    { apply backupFire_dummy_cases.
      destruct config as [envConfig|]; [|by left]. right.
      destruct (decide (functionName (getRuntimeEnv env) = Some "backupfire"))
        as [Hname|Hname]; [|by left]. right.
      destruct (isCompleteRuntimeEnv (getRuntimeEnv env)) eqn:Hc; [|done].
      destruct (backupFire_initialized envConfig env Hname Hc) as (Hr & _).
      rewrite Hr in Hh. by destruct (createApp _ _). }
    rewrite Hf. split; [simpl; lia|]. by rewrite <- Hh, Hd.
  - destruct (backupFire_agent_cases _ _ _ _ Hh) as (envConfig & _ & _ & _ & _ & _ & ->).
    split; [simpl; lia|]. split; [done|]. unfold dummyHandler. discriminate.
  - destruct (backupFire_threw_cases _ _ _ Hh) as (envConfig & _ & _ & _ & _ & ->).
    split; [simpl; lia|]. split; [done|]. discriminate.
Qed.

(** X3. Under a function name other than [backupfire] and without
    [debug] being the string [true], the start-up is silent: it prints
    nothing and fetches nothing. A missing configuration, and an
    incomplete environment under the name [backupfire], warn first
    whatever [debug] is. *)
Theorem dummy_start_up_output (env : ProcessEnv) :
  (∀ envConfig,
     functionName (getRuntimeEnv env) ≠ Some "backupfire" →
     Env.debug envConfig ≠ Some "true" →
     (backupFire (Some envConfig) env).2 = [])
  ∧ (∀ config,
       config = None
       ∨ (functionName (getRuntimeEnv env) = Some "backupfire"
          ∧ isCompleteRuntimeEnv (getRuntimeEnv env) = false) →
       ∃ args rest, (backupFire config env).2 = console_warn args :: rest).
Proof.
  split.
  - intros envConfig Hname Hdebug. unfold backupFire.
    rewrite (bool_decide_eq_false_2 _ Hname). simpl.
    by rewrite (bool_decide_eq_false_2 _ Hdebug).
  - intros config [->|[Hname Hc]]; [simpl; eauto|].
    unfold backupFire. destruct config as [envConfig|]; [|eauto].
    rewrite (bool_decide_eq_true_2 _ Hname), Hc. simpl. eauto.
Qed.

Lemma dummy_start_up_witness :
  (backupFire (Some (Demo.envConfig None))
     (Demo.processEnv (Some "proj") (Some "api"))).2 = []
  ∧ ∃ args rest,
      (backupFire (Some (Demo.envConfig None))
         (Demo.processEnv None (Some "backupfire"))).2 = console_warn args :: rest.
Proof.
  split.
  - apply (dummy_start_up_output (Demo.processEnv (Some "proj") (Some "api")));
      discriminate.
  - apply (dummy_start_up_output (Demo.processEnv None (Some "backupfire"))).
    right. split; reflexivity.
Defined.

(** X4. The options, which hold the controller token and the admin
    password, are printed exactly by a start-up that did not fall back to
    the dummy handler (the configuration is there, the function is named
    [backupfire] and the runtime environment is complete) and whose
    configured [debug] is exactly the string [true]; then once, as derived
    from the configuration. The print comes before [createApp], so a
    start-up that then throws on an empty token has printed them too. A
    start-up that gives the dummy handler prints no options. *)
Theorem options_printed_only_in_debug (config : option Env.BackupFireEnvConfig)
    (env : ProcessEnv) :
  printed_options (backupFire config env).2
  = match config with
    | Some envConfig =>
        if bool_decide (Env.debug envConfig = Some "true") && passes_checks config env
        then [deriveOptions envConfig] else []
    | None => []
    end
  ∧ (passes_checks config env = false ↔ (backupFire config env).1 = dummyHandler)
  ∧ (∀ e, (backupFire config env).1 = Threw e → passes_checks config env = true).
Proof.
  destruct config as [envConfig|]; [|done]. unfold passes_checks.
  destruct (decide (functionName (getRuntimeEnv env) = Some "backupfire")) as [Hname|Hname].
  - rewrite (bool_decide_eq_true_2 _ Hname). cbn [andb].
    destruct (isCompleteRuntimeEnv (getRuntimeEnv env)) eqn:Hc.
    + destruct (backupFire_initialized envConfig env Hname Hc) as (Hr & _ & ->).
      rewrite andb_true_r. split_and!; [done| |done].
      rewrite Hr. split; [done|]. by destruct (createApp _ _).
    + destruct (backupFire_dummy_cases (Some envConfig) env) as [Hd _]; [by auto|].
      rewrite andb_false_r, Hd. split_and!; [|done|done].
      unfold backupFire. rewrite (bool_decide_eq_true_2 _ Hname), Hc. reflexivity.
  - rewrite (bool_decide_eq_false_2 _ Hname). cbn [andb].
    destruct (backupFire_dummy_cases (Some envConfig) env) as [Hd _]; [by auto|].
    rewrite andb_false_r, Hd. split_and!; [|done|done].
    unfold backupFire. rewrite (bool_decide_eq_false_2 _ Hname). cbn [negb snd].
    by destruct (debug (deriveOptions envConfig)).
Qed.

(** X5. In a served agent every request meets, in this order, the JWT
    check with the configured token, the JSON body parser and CORS, and
    only then the routes; the users backup is mounted on [POST /users]
    with the project id of the process environment ([GCP_PROJECT] before
    [GCLOUD_PROJECT]); and every middleware that takes an allowlist is
    given the one derived from the configuration. *)
Theorem served_app_layout (config : option Env.BackupFireEnvConfig) (env : ProcessEnv)
    (fregion : string) (layers : list Layer) :
  (backupFire config env).1 = onRequest fregion (App layers) →
  ∃ envConfig project routes,
    config = Some envConfig
    ∧ JS.or (GCP_PROJECT env) (GCLOUD_PROJECT env) = Some project
    ∧ layers = use_jwt (Env.token envConfig) :: use_bodyParser_json :: use_cors :: routes
    ∧ Forall (λ l, is_route l = true) routes
    ∧ route POST "/users"
        (backupUsersMiddleware
           {| Users.bucketsAllowlist := deriveAllowlist (Env.allowlist envConfig);
              Users.projectId := project |}) ∈ routes
    ∧ Forall (λ m, allowlist_given m = None
                   ∨ allowlist_given m = Some (deriveAllowlist (Env.allowlist envConfig)))
        (mounted layers).
Proof.
  intros Happ.
  destruct (backupFire_agent_cases _ _ _ _ Happ)
    as (envConfig & -> & _ & Hc & _ & Hlayers & _).
  unfold isCompleteRuntimeEnv in Hc.
  apply andb_prop in Hc as [[_ Hp]%andb_prop _].
  apply truthy_Some in Hp as (project & Hp & _).
  destruct (createApp_cases (getRuntimeEnv env) (deriveOptions envConfig))
    as [[_ Hthrows]|(_ & routes & Hroutes & Hall & Husers & Hlists)]; [congruence|].
  rewrite Hlayers in Hroutes. injection Hroutes as ->.
  rewrite Hp in Husers.
  by exists envConfig, project, routes.
Qed.

Lemma served_app_layout_witness :
  ∃ envConfig project routes,
    Some (Demo.envConfig (Some "b1,b2")) = Some envConfig
    ∧ JS.or None (Some "proj") = Some project
    ∧ app_layers (backupFire (Some (Demo.envConfig (Some "b1,b2")))
                    (Demo.processEnv (Some "proj") (Some "backupfire"))).1
      = use_jwt (Env.token envConfig) :: use_bodyParser_json :: use_cors :: routes
    ∧ Forall (λ l, is_route l = true) routes
    ∧ route POST "/users"
        (backupUsersMiddleware
           {| Users.bucketsAllowlist := deriveAllowlist (Env.allowlist envConfig);
              Users.projectId := project |}) ∈ routes
    ∧ Forall (λ m, allowlist_given m = None
                   ∨ allowlist_given m = Some (deriveAllowlist (Env.allowlist envConfig)))
        (mounted (app_layers
                    (backupFire (Some (Demo.envConfig (Some "b1,b2")))
                       (Demo.processEnv (Some "proj") (Some "backupfire"))).1)).
Proof.
  apply (served_app_layout (Some (Demo.envConfig (Some "b1,b2")))
           (Demo.processEnv (Some "proj") (Some "backupfire")) defaultRegion).
  reflexivity.
Defined.

Lemma app_sep_inj (c : ascii) (a b x y : string) :
  Str.contains c a = false → Str.contains c b = false →
  a +:+ String c x = b +:+ String c y → a = b ∧ x = y.
Proof.
  revert b. induction a as [|d a IH]; intros [|e b]; rewrite ?app_cons, ?app_nil_l; simpl.
  - by intros _ _ [= ->].
  - intros _ [He _]%orb_false_elim [= <- _]. by rewrite Ascii.eqb_refl in He.
  - intros [Hd _]%orb_false_elim _ [= -> _]. by rewrite Ascii.eqb_refl in Hd.
  - intros [_ Ha]%orb_false_elim [_ Hb]%orb_false_elim [= -> H].
    by destruct (IH b Ha Hb H) as [-> ->].
Qed.

(** X6. The ping tells the agents of one controller apart: two served
    agents with the same controller domain that fetch the same ping URL
    have the same controller token and the same project id. *)
Theorem ping_determines_token_and_project
    (envConfig envConfig' : Env.BackupFireEnvConfig) (env env' : ProcessEnv) :
  is_agent (backupFire (Some envConfig) env).1 = true →
  is_agent (backupFire (Some envConfig') env').1 = true →
  controllerDomainOf envConfig = controllerDomainOf envConfig' →
  fetched (backupFire (Some envConfig) env).2
  = fetched (backupFire (Some envConfig') env').2 →
  Env.token envConfig = Env.token envConfig'
  ∧ projectId (getRuntimeEnv env) = projectId (getRuntimeEnv env').
Proof.
  assert (∀ cfg e, is_agent (backupFire (Some cfg) e).1 = true →
            ∃ p, projectId (getRuntimeEnv e) = Some p
                 ∧ fetched (backupFire (Some cfg) e).2
                   = ["https://" +:+ url_host (controllerDomainOf cfg)
                      +:+ "/ping?token=" +:+ Querystring.qsEscape (Env.token cfg)
                      +:+ "&projectId=" +:+ Querystring.qsEscape p
                      +:+ "&agentURL=" +:+ Querystring.qsEscape (agentURL (getRuntimeEnv e))])
    as Hping.
  { intros cfg e Hagent.
    destruct (backupFire (Some cfg) e).1 as [[r [|l]]|err] eqn:Hh; [done| |done].
    destruct (backupFire_agent_cases _ _ _ _ Hh) as (? & [= <-] & _ & Hc & _ & _ & ->).
    unfold isCompleteRuntimeEnv in Hc.
    apply andb_prop in Hc as [[_ Hp]%andb_prop _].
    apply truthy_Some in Hp as (p & Hp & _). exists p. split; [done|]. f_equal.
    rewrite (pingURL_written_out _ _ (controllerDomainOf cfg) p); [reflexivity| | |done].
    - unfold deriveOptions, controllerDomainOf. cbn [controllerDomain].
      by destruct (Env.domain cfg) as [[|c d]|].
    - unfold controllerDomainOf. by destruct (Env.domain cfg) as [[|c d]|]. }
  intros Ha Ha' Hdom Hfetch.
  destruct (Hping _ _ Ha) as (p & Hp & Hf), (Hping _ _ Ha') as (p' & Hp' & Hf').
  rewrite Hf, Hf', Hdom in Hfetch. clear Hping Ha Ha' Hf Hf'.
  apply (inj (λ url : string, [url])) in Hfetch as Hurl.
  do 3 apply (inj (String.app _)) in Hurl.
  apply app_sep_inj in Hurl as [Ht Hurl]; [|apply qsEscape_no_separator..].
  apply (inj (String.app "projectId=")) in Hurl.
  apply app_sep_inj in Hurl as [Hpp _]; [|apply qsEscape_no_separator..].
  apply qsEscape_inj in Ht, Hpp. split; [done|]. by rewrite Hp, Hp', Hpp.
Qed.

Lemma ping_determines_witness :
  Env.token (Demo.envConfig None) = Env.token (Demo.envConfig (Some "b1"))
  ∧ projectId (getRuntimeEnv (Demo.processEnv (Some "proj") (Some "backupfire")))
    = projectId (getRuntimeEnv (Demo.processEnv (Some "proj") (Some "backupfire"))).
Proof.
  apply (ping_determines_token_and_project (Demo.envConfig None)
           (Demo.envConfig (Some "b1"))
           (Demo.processEnv (Some "proj") (Some "backupfire"))
           (Demo.processEnv (Some "proj") (Some "backupfire"))); reflexivity.
Defined.

End StartupCoverage.

(** ** The users backup, call by call *)

Section UsersCoverage.
Import Users.

Lemma usersCountOf_defined (P : Platform) (content : string) :
  JS.is_undefined (usersCountOf P (Some content)) = false →
  ∃ v, JSON_parse P content = Some v ∧ countable (users_of v) = true.
Proof.
  intros Hdef. destruct (JSON_parse P content) as [v|] eqn:Hv.
  - exists v. split; [done|]. destruct (countable (users_of v)) eqn:Hc; [done|].
    by rewrite (usersCountOf_uncountable P content v Hv Hc) in Hdef.
  - by rewrite (usersCountOf_unparsed P content Hv) in Hdef.
Qed.


(** X7. When the export fails, [backupUsers] stops there: it is rejected
    with the export's error, the export is the only call (nothing is
    read, uploaded or unlinked), and the file system is left as the export
    left it. *)
Theorem export_failure_stops_the_run (P : Platform) (pid : string)
    (opts : UsersBackupRequestOptions) (w : World) (e : Error)
    (fs1 : gmap string string) :
  auth_export P (tmpPath P (path opts)) pid (files w) = (Rejected e, fs1) →
  backupUsers P pid opts w
  = (Rejected e,
     {| files := fs1; trace := trace w ++ [AuthExport (tmpPath P (path opts)) pid] |}).
Proof. intros Hexport. rewrite backupUsers_run. cbv zeta. by rewrite Hexport. Qed.

Lemma export_failure_witness :
  Demo.run (Demo.export_fails "denied") (Demo.uploads "1024") "b1"
  = (Rejected (PlatformError "denied"),
     {| files := ∅; trace := trace (initial ∅) ++ [AuthExport "/tmp/2024.json" "proj"] |}).
Proof.
  apply (export_failure_stops_the_run
           (Demo.platform (Demo.export_fails "denied") (Demo.uploads "1024"))
           "proj" (Demo.request "b1") (initial ∅)).
  reflexivity.
Defined.



(** X9. The calls of one run of [backupUsers] are, in order, one of: the
    export alone; the export, the read and the unlink; the export, the
    read and the upload; the export, the read, the upload and the unlink.
    So the export comes first and once, nothing is uploaded that was not
    read, at most one upload goes out, to the bucket and destination of
    the request, and the file is unlinked at most once, last. *)
Theorem backupUsers_call_order (P : Platform) (pid : string)
    (opts : UsersBackupRequestOptions) (w : World) :
  ∃ calls,
    trace (backupUsers P pid opts w).2 = trace w ++ calls
    ∧ (calls = [AuthExport (tmpPath P (path opts)) pid]
       ∨ calls = [AuthExport (tmpPath P (path opts)) pid;
                  ReadFile (tmpPath P (path opts));
                  Unlink (tmpPath P (path opts))]
       ∨ calls = [AuthExport (tmpPath P (path opts)) pid;
                  ReadFile (tmpPath P (path opts));
                  Upload (storageId opts) (tmpPath P (path opts)) (path opts)]
       ∨ calls = [AuthExport (tmpPath P (path opts)) pid;
                  ReadFile (tmpPath P (path opts));
                  Upload (storageId opts) (tmpPath P (path opts)) (path opts);
                  Unlink (tmpPath P (path opts))]).
Proof.
  rewrite backupUsers_run. cbv zeta.
  destruct (auth_export _ _ _ _) as [[[]|e] fs1];
    [|eexists; split; [reflexivity|by left]].
  destruct (JS.is_undefined _).
  - eexists. split; [|right; left; reflexivity].
    destruct (fs1 !! _); cbn [snd trace]; by rewrite <- !(assoc_L (++)).
  - destruct (fs1 !! _) as [content|].
    + destruct (bucket_upload _ _ _ _).
      * eexists. split; [|do 3 right; reflexivity].
        cbn [snd trace]. by rewrite <- !(assoc_L (++)).
      * eexists. split; [|do 2 right; left; reflexivity].
        cbn [snd trace]. by rewrite <- !(assoc_L (++)).
    + eexists. split; [|do 2 right; left; reflexivity].
      cbn [snd trace]. by rewrite <- !(assoc_L (++)).
Qed.

(** X10. A completed status is returned only after a real upload: the
    export succeeded, the artifact was there and parsed to a value whose
    [users] has a defined [length], the upload of that content to the
    request's bucket and path resolved to the reported size, and the
    reported count is that [length], never [undefined]. *)
Theorem completed_only_after_upload (P : Platform) (pid : string)
    (opts : UsersBackupRequestOptions) (w : World) (count : JS.Value) (size : string) :
  (backupUsers P pid opts w).1 = Resolved (Completed count size) →
  ∃ fs1 content v,
    auth_export P (tmpPath P (path opts)) pid (files w) = (Resolved (), fs1)
    ∧ fs1 !! tmpPath P (path opts) = Some content
    ∧ JSON_parse P content = Some v
    ∧ countable (users_of v) = true
    ∧ get_users v = Resolved (users_of v)
    ∧ get_length (users_of v) = Resolved count
    ∧ JS.is_undefined count = false
    ∧ bucket_upload P (storageId opts) content (path opts) = Resolved size
    ∧ Upload (storageId opts) (tmpPath P (path opts)) (path opts)
      ∈ trace (backupUsers P pid opts w).2.
Proof.
  rewrite backupUsers_run. cbv zeta.
  destruct (auth_export _ _ _ _) as [[[]|e] fs1] eqn:Hexport; [|done].
  destruct (JS.is_undefined _) eqn:Hdef.
  { by destruct (fs1 !! _). }
  destruct (fs1 !! _) as [content|] eqn:Hfile; [|done].
  destruct (bucket_upload _ _ _ _) as [size'|] eqn:Hupload; [|done].
  cbn [fst snd trace]. intros [= <- ->].
  destruct (usersCountOf_defined P content Hdef) as (v & Hv & Hc).
  exists fs1, content, v. split_and!; try done.
  - destruct v as [| | | | | |props]; try done.
  - unfold usersCountOf, parse. rewrite Hv.
    destruct v as [| | | | | |props]; try done. simpl in *.
    by destruct (JS.own_property props "users") as [| | | | | |props']; try done.
  - rewrite !elem_of_app. left. right. apply list_elem_of_In. by left.
Qed.

Lemma completed_only_after_upload_witness :
  ∃ fs1 content v,
    auth_export (Demo.platform (Demo.writes (Demo.artifact 2)) (Demo.uploads "1024"))
      (tmpPath (Demo.platform (Demo.writes (Demo.artifact 2)) (Demo.uploads "1024"))
         (path (Demo.request "b1"))) "proj" (files (initial ∅)) = (Resolved (), fs1)
    ∧ fs1 !! tmpPath (Demo.platform (Demo.writes (Demo.artifact 2)) (Demo.uploads "1024"))
               (path (Demo.request "b1")) = Some content
    ∧ JSON_parse (Demo.platform (Demo.writes (Demo.artifact 2)) (Demo.uploads "1024"))
        content = Some v
    ∧ countable (users_of v) = true
    ∧ get_users v = Resolved (users_of v)
    ∧ get_length (users_of v) = Resolved (JS.Number (JS.NLength 2))
    ∧ JS.is_undefined (JS.Number (JS.NLength 2)) = false
    ∧ bucket_upload (Demo.platform (Demo.writes (Demo.artifact 2)) (Demo.uploads "1024"))
        (storageId (Demo.request "b1")) content (path (Demo.request "b1"))
      = Resolved "1024"
    ∧ Upload (storageId (Demo.request "b1"))
        (tmpPath (Demo.platform (Demo.writes (Demo.artifact 2)) (Demo.uploads "1024"))
           (path (Demo.request "b1"))) (path (Demo.request "b1"))
      ∈ trace (backupUsers
                 (Demo.platform (Demo.writes (Demo.artifact 2)) (Demo.uploads "1024"))
                 "proj" (Demo.request "b1") (initial ∅)).2.
Proof.
  apply (completed_only_after_upload
           (Demo.platform (Demo.writes (Demo.artifact 2)) (Demo.uploads "1024"))
           "proj" (Demo.request "b1") (initial ∅)).
  reflexivity.
Defined.



(** X12. [backupUsers] itself touches one file only: whatever the
    outcome, every path other than the temporary one holds after the run
    what the export left there. *)
Theorem other_files_untouched (P : Platform) (pid : string)
    (opts : UsersBackupRequestOptions) (w : World) (other : string) :
  other ≠ tmpPath P (path opts) →
  files (backupUsers P pid opts w).2 !! other
  = (auth_export P (tmpPath P (path opts)) pid (files w)).2 !! other.
Proof.
  intros Hother. rewrite backupUsers_run. cbv zeta.
  destruct (auth_export _ _ _ _) as [[[]|e] fs1]; [|done].
  destruct (JS.is_undefined _).
  - destruct (fs1 !! tmpPath _ _); cbn [snd files]; [|done].
    by apply lookup_delete_ne.
  - destruct (fs1 !! tmpPath _ _) as [content|]; [|done].
    destruct (bucket_upload _ _ _ _); cbn [snd files]; [|done].
    by apply lookup_delete_ne.
Qed.

Lemma other_files_untouched_witness :
  files (backupUsers (Demo.platform (Demo.writes (Demo.artifact 2)) (Demo.uploads "1024"))
           "proj" (Demo.request "b1") (initial {["/tmp/keep.json" := "kept"]})).2
    !! "/tmp/keep.json"
  = (auth_export (Demo.platform (Demo.writes (Demo.artifact 2)) (Demo.uploads "1024"))
       (tmpPath (Demo.platform (Demo.writes (Demo.artifact 2)) (Demo.uploads "1024"))
          (path (Demo.request "b1"))) "proj"
       (files (initial {["/tmp/keep.json" := "kept"]}))).2 !! "/tmp/keep.json".
Proof.
  apply (other_files_untouched
           (Demo.platform (Demo.writes (Demo.artifact 2)) (Demo.uploads "1024"))
           "proj" (Demo.request "b1") (initial {["/tmp/keep.json" := "kept"]})
           "/tmp/keep.json").
  by vm_compute.
Defined.

Lemma backupUsersMiddleware_run (opts : UsersBackupOptions) (P : Platform)
    (body : UsersBackupRequestOptions) (w : World) :
  backupUsersMiddleware opts P body w
  = match backupUsers P (projectId opts) body w with
    | (Resolved status, w') =>
        (Resolved (), {| files := files w'; trace := trace w' ++ [Respond status] |})
    | (Rejected e, w') => (Rejected e, w')
    end.
Proof.
  destruct opts as [allow pid]. unfold backupUsersMiddleware, operationResponse, bind, emit.
  cbn [projectId]. by destruct (backupUsers P pid body w) as [[status|e] w'].
Qed.

(** X13. The handler answers exactly when [backupUsers] returns a status:
    the response carries that status, it is the last thing the handler
    does, it comes right after the unlink, and the temporary file is gone
    by then. When [backupUsers] is rejected the handler is rejected with
    the same error and sends no response. *)
Theorem response_follows_cleanup (opts : UsersBackupOptions) (P : Platform)
    (body : UsersBackupRequestOptions) (w : World) :
  match (backupUsersMiddleware opts P body w).1 with
  | Resolved _ =>
      ∃ status calls,
        (backupUsers P (projectId opts) body w).1 = Resolved status
        ∧ trace (backupUsersMiddleware opts P body w).2
          = trace w ++ calls ++ [Unlink (tmpPath P (path body)); Respond status]
        ∧ Forall (λ e, is_respond e = false) calls
        ∧ files (backupUsersMiddleware opts P body w).2 !! tmpPath P (path body) = None
  | Rejected e =>
      (backupUsers P (projectId opts) body w).1 = Rejected e
      ∧ ∃ calls,
          trace (backupUsersMiddleware opts P body w).2 = trace w ++ calls
          ∧ Forall (λ e, is_respond e = false) calls
  end.
Proof.
  rewrite backupUsersMiddleware_run, backupUsers_run. cbv zeta.
  destruct (auth_export _ _ _ _) as [[[]|e] fs1].
  2: { cbn [fst snd trace]. split; [done|]. eexists. split; [done|]. repeat constructor. }
  destruct (JS.is_undefined _).
  - destruct (fs1 !! _) as [content|]; cbn [fst snd trace files].
    + eexists _, [AuthExport (tmpPath P (path body)) (projectId opts);
                  ReadFile (tmpPath P (path body))].
      split_and!; [done| |repeat constructor|apply lookup_delete_eq].
      by rewrite <- !(assoc_L (++)).
    + split; [done|]. eexists. rewrite <- !(assoc_L (++)).
      split; [done|]. repeat constructor.
  - destruct (fs1 !! _) as [content|]; cbn [fst snd trace files].
    + destruct (bucket_upload _ _ _ _); cbn [fst snd trace files].
      * eexists _, [AuthExport (tmpPath P (path body)) (projectId opts);
                    ReadFile (tmpPath P (path body));
                    Upload (storageId body) (tmpPath P (path body)) (path body)].
        split_and!; [done| |repeat constructor|apply lookup_delete_eq].
        by rewrite <- !(assoc_L (++)).
      * split; [done|]. eexists. rewrite <- !(assoc_L (++)).
        split; [done|]. repeat constructor.
    + split; [done|]. eexists. rewrite <- !(assoc_L (++)).
      split; [done|]. repeat constructor.
Qed.

End UsersCoverage.

(** ** Where the temporary file lies *)

Section TmpPathCoverage.
Import Users.

Lemma normalize_step_nonempty (allow : bool) (kept : list string) (seg : string) :
  Forall (λ s, s ≠ "") kept → Forall (λ s, s ≠ "") (Path.normalize_step allow kept seg).
Proof.
  intros Hkept. unfold Path.normalize_step.
  destruct seg as [|c seg]; [done|]. cbn [Str.is_empty orb].
  destruct (String.eqb (String c seg) "."); [done|].
  destruct (String.eqb (String c seg) "..").
  - destruct kept as [|top kept]; [by destruct allow; repeat constructor|].
    inversion Hkept; subst. destruct (String.eqb top ".."); [|done].
    destruct allow; [|done]. by constructor.
  - by constructor.
Qed.

Lemma normalize_fold_nonempty (allow : bool) (segs kept : list string) :
  Forall (λ s, s ≠ "") kept →
  Forall (λ s, s ≠ "") (List.fold_left (Path.normalize_step allow) segs kept).
Proof.
  revert kept. induction segs as [|seg segs IH]; intros kept Hkept; [done|].
  simpl. by apply IH, normalize_step_nonempty.
Qed.

Lemma join_nonempty (sep seg : string) (segs : list string) :
  seg ≠ "" → Str.join sep (seg :: segs) ≠ "".
Proof. destruct seg as [|c seg]; [done|]. by destruct segs. Qed.

Lemma resolve_loop_absolute (tmpdir cwd : string) :
  Str.starts_with "/" cwd = true → (Path.resolve_loop [tmpdir; cwd] "").2 = true.
Proof.
  intros Hcwd. destruct cwd as [|c cwd]; [done|]. simpl in Hcwd. simpl.
  destruct (Str.is_empty tmpdir).
  - unfold Str.slash. by rewrite Hcwd.
  - destruct (Str.starts_with Str.slash tmpdir); [done|].
    unfold Str.slash. by rewrite Hcwd.
Qed.

(** The segments kept for the temporary directory, and the paths resolved
    from them. *)
Lemma resolve_in_directory (cwd tmpdir : string) :
  Str.starts_with "/" cwd = true →
  ∃ kept,
    Forall (λ s, s ≠ "") kept
    ∧ Path.resolve cwd [tmpdir] = "/" +:+ Str.join "/" (List.rev kept)
    ∧ Path.resolve cwd [tmpdir; "."] = "/" +:+ Str.join "/" (List.rev kept)
    ∧ ∀ f, Path.plain f → Str.contains "/" f = false →
           Path.resolve cwd [tmpdir; f]
           = "/" +:+ match List.rev kept with
                     | [] => ""
                     | _ :: _ => Str.join "/" (List.rev kept) +:+ "/"
                     end +:+ f.
Proof.
  intros Hcwd.
  destruct (resolve_loop_slices [tmpdir; cwd]) as [front Hfront].
  pose proof (resolve_loop_absolute tmpdir cwd Hcwd) as Habs.
  destruct (Path.resolve_loop [tmpdir; cwd] "") as [pre abs] eqn:Hloop.
  cbn [fst snd] in *. subst abs.
  exists (List.fold_left (Path.normalize_step false) front []).
  set (kept := List.fold_left (Path.normalize_step false) front []).
  split_and!.
  - by apply normalize_fold_nonempty.
  - unfold Path.resolve. change (List.rev [tmpdir] ++ [cwd]) with [tmpdir; cwd].
    rewrite Hloop. cbn [negb]. f_equal. unfold Path.normalizeString, Str.slash.
    rewrite <- (app_nil_r pre), Hfront. by rewrite List.fold_left_app.
  - unfold Path.resolve. change (List.rev [tmpdir; "."] ++ [cwd]) with ("." :: [tmpdir; cwd]).
    rewrite resolve_loop_relative by done. rewrite resolve_loop_acc, Hloop.
    cbn [fst snd negb]. f_equal. unfold Path.normalizeString, Str.slash.
    rewrite Hfront. by rewrite List.fold_left_app.
  - intros f Hplain Hslash. unfold Path.resolve.
    change (List.rev [tmpdir; f] ++ [cwd]) with (f :: [tmpdir; cwd]).
    rewrite resolve_loop_relative by (done || by destruct Hplain).
    rewrite resolve_loop_acc, Hloop. cbn [fst snd negb]. rewrite app_nil_r.
    f_equal. unfold Path.normalizeString, Str.slash. rewrite Hfront.
    change (f +:+ "/") with (f +:+ String "/" "").
    rewrite split_app, (split_without_sep _ f Hslash).
    rewrite List.fold_left_app. fold kept. simpl List.fold_left.
    rewrite (normalize_step_plain _ _ f Hplain).
    change (Path.normalize_step false (f :: kept) "") with (f :: kept).
    simpl List.rev. apply join_snoc.
Qed.

Lemma resolve_file_in_directory (cwd tmpdir f : string) :
  Str.starts_with "/" cwd = true → Path.plain f → Str.contains "/" f = false →
  Path.resolve cwd [tmpdir; f]
  = (if String.eqb (Path.resolve cwd [tmpdir]) "/" then "/"
     else Path.resolve cwd [tmpdir] +:+ "/") +:+ f.
Proof.
  intros Hcwd Hplain Hslash.
  destruct (resolve_in_directory cwd tmpdir Hcwd) as (kept & Hkept & Hd & _ & Hf).
  rewrite Hd, (Hf f Hplain Hslash). clear Hd Hf.
  apply Forall_rev in Hkept. destruct (List.rev kept) as [|seg segs]; [done|].
  inversion Hkept; subst.
  pose proof (join_nonempty "/" seg segs ltac:(done)) as Hjoin.
  destruct (Str.join "/" (seg :: segs)) as [|c rest] eqn:Hj; [done|].
  cbn [String.eqb Ascii.eqb]. rewrite !app_cons, !app_nil_l.
  destruct (String.eqb_spec (String c rest) ""); [done|].
  assert (String.eqb (String "/" (String c rest)) "/" = false) as -> by (by simpl).
  by rewrite !app_cons, !app_assoc.
Qed.

Lemma base_after_slash (dir f : string) :
  f ≠ "" → Str.contains "/" f = false → Path.base (dir +:+ String "/" f) = f.
Proof.
  intros Hne Hslash. unfold Path.base, Str.slash.
  rewrite split_app, (split_without_sep _ f Hslash), List.filter_app.
  cbn [List.filter]. destruct f as [|c f]; [done|]. cbn [Str.is_empty negb].
  apply List.last_last.
Qed.

(** X14. With an absolute working directory, the temporary file of a
    destination whose base name is a file name lies directly in the
    resolved temporary directory and is named by that base name, which
    holds no slash: no directory of the destination path is taken over. *)
Theorem tmpPath_in_tmpdir (P : Platform) (p : string) :
  Str.starts_with "/" (cwd P) = true →
  Path.plain (Path.base p) →
  tmpPath P p
  = (if String.eqb (Path.resolve (cwd P) [tmpdir P]) "/" then "/"
     else Path.resolve (cwd P) [tmpdir P] +:+ "/") +:+ Path.base p
  ∧ Str.contains "/" (Path.base p) = false.
Proof.
  intros Hcwd Hplain. split; [|apply base_no_slash].
  unfold tmpPath. by apply resolve_file_in_directory; [..|apply base_no_slash].
Qed.

Lemma tmpPath_in_tmpdir_witness :
  tmpPath (Demo.platform (Demo.writes "") (Demo.uploads "")) "users/2024.json"
  = (if String.eqb (Path.resolve "/srv" ["/tmp"]) "/" then "/"
     else Path.resolve "/srv" ["/tmp"] +:+ "/") +:+ Path.base "users/2024.json"
  ∧ Str.contains "/" (Path.base "users/2024.json") = false.
Proof.
  apply (tmpPath_in_tmpdir (Demo.platform (Demo.writes "") (Demo.uploads ""))
           "users/2024.json"); by vm_compute.
Defined.

(** X15. A destination without a file name (the empty path, a path of
    slashes only, or one that ends in [.]) gives no file in the temporary
    directory: the temporary path is the resolved temporary directory
    itself. *)
Theorem tmpPath_without_file_name (P : Platform) (p : string) :
  Str.starts_with "/" (cwd P) = true →
  Path.base p = "" ∨ Path.base p = "." →
  tmpPath P p = Path.resolve (cwd P) [tmpdir P].
Proof.
  intros Hcwd Hbase. unfold tmpPath. destruct Hbase as [-> | ->]; [reflexivity|].
  by destruct (resolve_in_directory (cwd P) (tmpdir P) Hcwd) as (kept & _ & -> & -> & _).
Qed.

Lemma tmpPath_without_file_name_witness :
  tmpPath (Demo.platform (Demo.writes "") (Demo.uploads "")) "/" = Path.resolve "/srv" ["/tmp"]
  ∧ tmpPath (Demo.platform (Demo.writes "") (Demo.uploads "")) "backups/."
    = Path.resolve "/srv" ["/tmp"].
Proof.
  split.
  - apply (tmpPath_without_file_name (Demo.platform (Demo.writes "") (Demo.uploads "")) "/");
      [reflexivity|by left].
  - apply (tmpPath_without_file_name (Demo.platform (Demo.writes "") (Demo.uploads ""))
             "backups/."); [reflexivity|by right].
Defined.

(** X16. With an absolute working directory and a destination whose base
    name is a file name, the temporary path has that same base name, and
    taking the temporary path of a temporary path changes nothing. *)
Theorem tmpPath_keeps_base (P : Platform) (p : string) :
  Str.starts_with "/" (cwd P) = true →
  Path.plain (Path.base p) →
  Path.base (tmpPath P p) = Path.base p
  ∧ tmpPath P (tmpPath P p) = tmpPath P p.
Proof.
  intros Hcwd Hplain.
  assert (Path.base (tmpPath P p) = Path.base p) as Hbase.
  { unfold tmpPath at 1.
    rewrite resolve_file_in_directory by (done || apply base_no_slash).
    destruct (String.eqb _ "/").
    - apply (base_after_slash ""); [by destruct Hplain|apply base_no_slash].
    - rewrite app_assoc.
      apply base_after_slash; [by destruct Hplain|apply base_no_slash]. }
  split; [done|]. unfold tmpPath at 1. rewrite Hbase. reflexivity.
Qed.

Lemma tmpPath_keeps_base_witness :
  Path.base (tmpPath (Demo.platform (Demo.writes "") (Demo.uploads "")) "users/2024.json")
  = Path.base "users/2024.json"
  ∧ tmpPath (Demo.platform (Demo.writes "") (Demo.uploads ""))
      (tmpPath (Demo.platform (Demo.writes "") (Demo.uploads "")) "users/2024.json")
    = tmpPath (Demo.platform (Demo.writes "") (Demo.uploads "")) "users/2024.json".
Proof.
  apply (tmpPath_keeps_base (Demo.platform (Demo.writes "") (Demo.uploads ""))
           "users/2024.json"); by vm_compute.
Defined.

Example tmpPath_of_a_parent :
  tmpPath (Demo.platform (Demo.writes "") (Demo.uploads "")) "backups/.." = "/".
Proof. reflexivity. Qed.

End TmpPathCoverage.

(** ** The initialization ping, read back *)

Section PingReadBack.
Import Index.

Lemma span_all (p : ascii → bool) (s : string) :
  Str.all_chars p s = true → Json.span p s = (s, "").
Proof.
  induction s as [|c s IH]; [done|]. simpl.
  intros [-> Hs]%andb_prop. by rewrite (IH Hs).
Qed.

Lemma span_app (p : ascii → bool) (a : string) (c : ascii) (rest : string) :
  Str.all_chars p a = true → p c = false →
  Json.span p (a +:+ String c rest) = (a, String c rest).
Proof.
  intros Ha Hc. induction a as [|d a IH].
  - rewrite app_nil_l. simpl. by rewrite Hc.
  - rewrite app_cons. simpl in *. apply andb_prop in Ha as [-> Ha]. by rewrite (IH Ha).
Qed.

Lemma all_chars_impl (p q : ascii → bool) (s : string) :
  (∀ c, p c = true → q c = true) →
  Str.all_chars p s = true → Str.all_chars q s = true.
Proof.
  intros Hpq. induction s as [|c s IH]; [done|]. simpl.
  intros [Hc Hs]%andb_prop. by rewrite (Hpq c Hc), (IH Hs).
Qed.

Lemma all_chars_absent (c : ascii) (s : string) :
  Str.contains c s = false → Str.all_chars (Reader.none_of [c]) s = true.
Proof.
  induction s as [|a s IH]; [done|]. simpl.
  intros [Ha Hs]%orb_false_elim. rewrite (IH Hs), andb_true_r.
  unfold Reader.none_of, Reader.one_of. rewrite bool_decide_eq_false_2; [done|].
  intros ->%list_elem_of_singleton. by rewrite Ascii.eqb_refl in Ha.
Qed.

(** A host name holds none of the characters that end the authority of a
    URL, and no colon. *)
Lemma host_char_in_authority (c : ascii) :
  Reader.host_char c = true → Reader.none_of ["/"; "?"; "#"]%char c = true.
Proof. destruct c as [[] [] [] [] [] [] [] []]; vm_compute; done. Qed.

Lemma host_name_no_colon (d : string) :
  Reader.is_host_name d = true → Str.contains ":" d = false ∧ d ≠ "".
Proof.
  unfold Reader.is_host_name. intros [Hd Hall]%andb_prop. split.
  - by apply (all_chars_contains Reader.host_char).
  - by destruct d.
Qed.

(** *** Percent-decoding undoes [qsEscape] *)

Lemma unescape_plain (c : ascii) (s : string) :
  Ascii.eqb c "%" = false →
  Reader.unescape (String c s) = String c (Reader.unescape s).
Proof. intros Hc. destruct s as [|a [|b rest]]; cbn; by rewrite ?Hc. Qed.

Lemma unescape_hexTable (c : ascii) (s : string) :
  Reader.unescape (Querystring.hexTable c +:+ s) = String c (Reader.unescape s).
Proof. destruct c as [[] [] [] [] [] [] [] []]; reflexivity. Qed.

Lemma noEscape_not_percent (c : ascii) :
  Querystring.noEscape c = true → Ascii.eqb c "%" = false.
Proof. destruct (Ascii.eqb_spec c "%") as [->|]; [by vm_compute|done]. Qed.

Lemma unescape_qsEscape (s : string) :
  Reader.unescape (Querystring.qsEscape s) = s.
Proof.
  induction s as [|c s IH]; [done|].
  rewrite qsEscape_cons. destruct (Querystring.noEscape c) eqn:Hc.
  - by rewrite (unescape_plain _ _ (noEscape_not_percent c Hc)), IH.
  - by rewrite unescape_hexTable, IH.
Qed.

Lemma decode_qsEscape (s : string) : Reader.decode (Querystring.qsEscape s) = s.
Proof.
  unfold Reader.decode. rewrite replace_all_absent; [apply unescape_qsEscape|].
  apply (all_chars_contains Querystring.written); [done|apply qsEscape_written].
Qed.

Lemma pair_of_written (k v : string) :
  Str.contains "=" k = false →
  Reader.pair_of (k +:+ "=" +:+ Querystring.qsEscape v) = (Reader.decode k, v).
Proof.
  intros Hk. unfold Reader.pair_of.
  change ("=" +:+ Querystring.qsEscape v) with (String "=" (Querystring.qsEscape v)).
  rewrite span_app; [|by apply all_chars_absent|reflexivity].
  by rewrite decode_qsEscape.
Qed.

(** The query of the ping reads back as its three pairs. *)
Lemma parse_ping_query (t p a : string) :
  Reader.parse ("token=" +:+ Querystring.qsEscape t
                +:+ "&projectId=" +:+ Querystring.qsEscape p
                +:+ "&agentURL=" +:+ Querystring.qsEscape a)
  = [("token", t); ("projectId", p); ("agentURL", a)].
Proof.
  assert (∀ k v, Str.contains "&" k = false →
            Str.contains "&" (k +:+ "=" +:+ Querystring.qsEscape v) = false) as Hamp.
  { intros k v Hk.
    by rewrite !contains_app, Hk, (proj1 (qsEscape_no_separator v)). }
  assert ("token=" +:+ Querystring.qsEscape t
          +:+ "&projectId=" +:+ Querystring.qsEscape p
          +:+ "&agentURL=" +:+ Querystring.qsEscape a
          = ("token" +:+ "=" +:+ Querystring.qsEscape t)
            +:+ String "&"
                  (("projectId" +:+ "=" +:+ Querystring.qsEscape p)
                   +:+ String "&" ("agentURL" +:+ "=" +:+ Querystring.qsEscape a)))
    as ->.
  { rewrite !app_assoc. reflexivity. }
  unfold Reader.parse.
  rewrite !split_app, !split_without_sep by (by apply Hamp).
  change (List.filter _ _)
    with ["token" +:+ "=" +:+ Querystring.qsEscape t;
          "projectId" +:+ "=" +:+ Querystring.qsEscape p;
          "agentURL" +:+ "=" +:+ Querystring.qsEscape a].
  cbn [List.map]. by rewrite !pair_of_written.
Qed.

(** An [https] URL on a host name, with a path and a query without a
    hash, reads back as its components. *)
Lemma read_https (d q : string) :
  Reader.is_host_name d = true →
  Str.contains "#" q = false →
  Reader.read ("https://" +:+ d +:+ "/ping?" +:+ q)
  = Some {| Reader.scheme := "https"; Reader.authority := d;
            Reader.path := "/ping"; Reader.query := Some q |}.
Proof.
  intros [_ Hd]%andb_prop Hq. unfold Reader.read.
  change ("https://" +:+ d +:+ "/ping?" +:+ q)
    with ("https" +:+ String ":" ("//" +:+ d +:+ "/ping?" +:+ q)).
  rewrite span_app by reflexivity.
  change (Json.strip_prefix "://" (String ":" ("//" +:+ d +:+ "/ping?" +:+ q)))
    with (Some (d +:+ String "/" ("ping?" +:+ q))).
  cbv beta iota.
  rewrite span_app;
    [|by apply (all_chars_impl Reader.host_char), Hd;
        apply host_char_in_authority|reflexivity].
  change (String "/" ("ping?" +:+ q)) with ("/ping" +:+ String "?" q).
  rewrite span_app by reflexivity.
  cbv beta iota.
  rewrite Ascii.eqb_refl, span_all by (by apply all_chars_absent).
  reflexivity.
Qed.

End PingReadBack.

Section PingClaim.
Import Index.

(** C8, amended. On a successful start-up whose controller domain (the
    configured one, [backupfire.dev] when there is none) is a host name,
    exactly one ping is fetched. Its URL is [https://], the domain, the
    path [/ping] and a query; whoever reads the URL finds the scheme
    [https], that domain as the authority and the path [/ping]; and the
    query decodes to exactly three pairs: the controller token, the
    project identifier and the agent's URL
    [https://{region}-{projectId}.cloudfunctions.net/{functionName}]. *)
Theorem initialization_ping_reads_back
    (envConfig : Env.BackupFireEnvConfig) (env : ProcessEnv)
    (fregion : string) (layers : list Layer) :
  (backupFire (Some envConfig) env).1 = onRequest fregion (App layers) →
  Reader.is_host_name (controllerDomainOf envConfig) = true →
  ∃ r p f query,
    region (getRuntimeEnv env) = Some r
    ∧ projectId (getRuntimeEnv env) = Some p
    ∧ functionName (getRuntimeEnv env) = Some f
    ∧ fetched (backupFire (Some envConfig) env).2
      = ["https://" +:+ controllerDomainOf envConfig +:+ "/ping?" +:+ query]
    ∧ Reader.read ("https://" +:+ controllerDomainOf envConfig +:+ "/ping?" +:+ query)
      = Some {| Reader.scheme := "https";
                Reader.authority := controllerDomainOf envConfig;
                Reader.path := "/ping";
                Reader.query := Some query |}
    ∧ Reader.parse query
      = [("token", Env.token envConfig);
         ("projectId", p);
         ("agentURL",
          "https://" +:+ r +:+ "-" +:+ p +:+ ".cloudfunctions.net/" +:+ f)].
Proof.
  intros Happ Hhost.
  destruct (backupFire_agent_cases _ _ _ _ Happ)
    as (? & [= <-] & Hf & Hc & _ & _ & ->).
  unfold isCompleteRuntimeEnv in Hc.
  apply andb_prop in Hc as [[_ Hp]%andb_prop Hr].
  apply truthy_Some in Hp as (p & Hp & _).
  apply truthy_Some in Hr as (r & Hr & _).
  destruct (host_name_no_colon _ Hhost) as [Hcolon Hne].
  set (a := "https://" +:+ r +:+ "-" +:+ p +:+ ".cloudfunctions.net/" +:+ "backupfire").
  exists r, p, "backupfire",
    ("token=" +:+ Querystring.qsEscape (Env.token envConfig)
     +:+ "&projectId=" +:+ Querystring.qsEscape p
     +:+ "&agentURL=" +:+ Querystring.qsEscape a).
  split_and!; [done..| | |].
  - f_equal.
    rewrite (pingURL_written_out _ _ (controllerDomainOf envConfig) p); [| |done|done].
    + rewrite Hcolon. unfold agentURL. rewrite Hr, Hp, Hf.
      cbn [interpolate controllerToken deriveOptions].
      change "/ping?token=" with ("/ping?" +:+ "token="). by rewrite !app_assoc.
    + unfold deriveOptions, controllerDomainOf. cbn [controllerDomain].
      by destruct (Env.domain envConfig) as [[|c d]|].
  - apply read_https; [done|].
    by rewrite !contains_app, !qsEscape_no_hash.
  - apply parse_ping_query.
Qed.

Lemma initialization_ping_witness :
  ∃ r p f query,
    region (getRuntimeEnv (Demo.processEnv (Some "proj") (Some "backupfire"))) = Some r
    ∧ projectId (getRuntimeEnv (Demo.processEnv (Some "proj") (Some "backupfire")))
      = Some p
    ∧ functionName (getRuntimeEnv (Demo.processEnv (Some "proj") (Some "backupfire")))
      = Some f
    ∧ fetched (backupFire (Some (Demo.envConfigAt "ctl.example.com"))
                 (Demo.processEnv (Some "proj") (Some "backupfire"))).2
      = ["https://" +:+ controllerDomainOf (Demo.envConfigAt "ctl.example.com")
         +:+ "/ping?" +:+ query]
    ∧ Reader.read ("https://" +:+ controllerDomainOf (Demo.envConfigAt "ctl.example.com")
                   +:+ "/ping?" +:+ query)
      = Some {| Reader.scheme := "https";
                Reader.authority := controllerDomainOf (Demo.envConfigAt "ctl.example.com");
                Reader.path := "/ping";
                Reader.query := Some query |}
    ∧ Reader.parse query
      = [("token", Env.token (Demo.envConfigAt "ctl.example.com"));
         ("projectId", p);
         ("agentURL",
          "https://" +:+ r +:+ "-" +:+ p +:+ ".cloudfunctions.net/" +:+ f)].
Proof.
  apply (initialization_ping_reads_back (Demo.envConfigAt "ctl.example.com")
           (Demo.processEnv (Some "proj") (Some "backupfire"))
           defaultRegion
           (app_layers (backupFire (Some (Demo.envConfigAt "ctl.example.com"))
                          (Demo.processEnv (Some "proj") (Some "backupfire"))).1));
    reflexivity.
Defined.

(** C8, as it is stated, fails: the configured domain is written into
    the URL as it is. With a domain that holds a slash and a question
    mark the agent starts, and the one URL it fetches is read as the path
    [/x] on the host [evil.example], with no [token] in its query; with a
    domain that holds a port, the authority is the domain between
    brackets, which names no host. *)
Lemma ping_not_on_the_configured_domain :
  (is_agent (backupFire (Some (Demo.envConfigAt "evil.example/x?y="))
               (Demo.processEnv (Some "proj") (Some "backupfire"))).1 = true
   ∧ fetched (backupFire (Some (Demo.envConfigAt "evil.example/x?y="))
                (Demo.processEnv (Some "proj") (Some "backupfire"))).2
     = ["https://evil.example/x?y=/ping?token=secret%20token&projectId=proj&agentURL=https%3A%2F%2Fus-central1-proj.cloudfunctions.net%2Fbackupfire"]
   ∧ Reader.read "https://evil.example/x?y=/ping?token=secret%20token&projectId=proj&agentURL=https%3A%2F%2Fus-central1-proj.cloudfunctions.net%2Fbackupfire"
     = Some {| Reader.scheme := "https";
               Reader.authority := "evil.example";
               Reader.path := "/x";
               Reader.query := Some "y=/ping?token=secret%20token&projectId=proj&agentURL=https%3A%2F%2Fus-central1-proj.cloudfunctions.net%2Fbackupfire" |}
   ∧ Reader.parse "y=/ping?token=secret%20token&projectId=proj&agentURL=https%3A%2F%2Fus-central1-proj.cloudfunctions.net%2Fbackupfire"
     = [("y", "/ping?token=secret token");
        ("projectId", "proj");
        ("agentURL", "https://us-central1-proj.cloudfunctions.net/backupfire")])
  ∧ (is_agent (backupFire (Some (Demo.envConfigAt "ctl.example.com:8443"))
                 (Demo.processEnv (Some "proj") (Some "backupfire"))).1 = true
     ∧ fetched (backupFire (Some (Demo.envConfigAt "ctl.example.com:8443"))
                  (Demo.processEnv (Some "proj") (Some "backupfire"))).2
       = ["https://[ctl.example.com:8443]/ping?token=secret%20token&projectId=proj&agentURL=https%3A%2F%2Fus-central1-proj.cloudfunctions.net%2Fbackupfire"]
     ∧ omap (λ u, Reader.authority <$> Reader.read u)
         (fetched (backupFire (Some (Demo.envConfigAt "ctl.example.com:8443"))
                     (Demo.processEnv (Some "proj") (Some "backupfire"))).2)
       = ["[ctl.example.com:8443]"]).
Proof. split; split_and!; by vm_compute. Qed.

(** The start-up on an empty token: it prints in debug mode, pings and
    then throws. *)
Example empty_token_start_up :
  (backupFire (Some (Demo.envConfigOf "" (Some "true")))
     (Demo.processEnv (Some "proj") (Some "backupfire"))).1
  = Threw (Error "secret should be set")
  ∧ fetched (backupFire (Some (Demo.envConfigOf "" (Some "true")))
               (Demo.processEnv (Some "proj") (Some "backupfire"))).2
    = ["https://backupfire.dev/ping?token=&projectId=proj&agentURL=https%3A%2F%2Fus-central1-proj.cloudfunctions.net%2Fbackupfire"]
  ∧ printed_options (backupFire (Some (Demo.envConfigOf "" (Some "true")))
                       (Demo.processEnv (Some "proj") (Some "backupfire"))).2
    = [deriveOptions (Demo.envConfigOf "" (Some "true"))].
Proof. split_and!; by vm_compute. Qed.

End PingClaim.
